(** * note-book-backend: the Express handlers over a document store

    A shallow embedding of the two entry points of the repository:

    - the authenticated application (the listing that installs
      [authenticateFirebaseToken] before every notes and folders route), in
      module [Secured];
    - [src/index.js], the entry point whose three read routes carry no
      middleware, in module [Index] (an earlier listing of the same file
      has its [GET /notes] route only, word for word).

    The handlers are thin, so the embedding keeps their shape: each one is a
    [try { ... } catch (error) { ... }] block around a single call of the
    MongoDB driver.  The driver and the Firebase verifier are libraries, not
    code of the repository; the operations the handlers use are modelled
    below ([insertOne], [find], [findOne], [updateOne], [deleteOne],
    [newObjectId]) and the verifier is a section variable. *)

From Stdlib Require Import ZArith NArith List Bool Lia.
From Stdlib.Strings Require Import String Ascii Byte.
From stdpp Require Import base option list gmap strings.

Set Warnings "-register-all".

Local Open Scope string_scope.
Local Open Scope list_scope.

(* ===================================================================== *)
(** ** ObjectId: twelve bytes, written as twenty-four hex digits          *)
(* ===================================================================== *)

Module Hex.

(** The sixteen digits [toHexString] produces (lower case). *)
Definition digit (n : N) : ascii :=
  match n with
  | 0%N => "0" | 1%N => "1" | 2%N => "2" | 3%N => "3"
  | 4%N => "4" | 5%N => "5" | 6%N => "6" | 7%N => "7"
  | 8%N => "8" | 9%N => "9" | 10%N => "a" | 11%N => "b"
  | 12%N => "c" | 13%N => "d" | 14%N => "e" | _ => "f"
  end%char.

(** The value of a hex digit, either case, as the [/^[0-9a-fA-F]{24}$/]
    test of the driver accepts it. *)
Definition nibble (c : ascii) : option N :=
  let n := N_of_ascii c in
  if ((48 <=? n) && (n <=? 57))%N then Some (n - 48)%N
  else if ((97 <=? n) && (n <=? 102))%N then Some (n - 87)%N
  else if ((65 <=? n) && (n <=? 70))%N then Some (n - 55)%N
  else None.

Definition hi (b : byte) : ascii := digit (Byte.to_N b / 16)%N.
Definition lo (b : byte) : ascii := digit (Byte.to_N b mod 16)%N.

Definition byte_of_digits (c1 c2 : ascii) : option byte :=
  match nibble c1, nibble c2 with
  | Some h, Some l => Byte.of_N (16 * h + l)%N
  | _, _ => None
  end.

Fixpoint encode (bs : list byte) : string :=
  match bs with
  | [] => EmptyString
  | b :: bs' => String (hi b) (String (lo b) (encode bs'))
  end.

Fixpoint decode (s : string) : option (list byte) :=
  match s with
  | EmptyString => Some []
  | String _ EmptyString => None
  | String c1 (String c2 s') =>
      match byte_of_digits c1 c2, decode s' with
      | Some b, Some bs => Some (b :: bs)
      | _, _ => None
      end
  end.

End Hex.

(** The twelve bytes of an identifier.  Every inhabitant is a valid
    ObjectId, as every instance of the driver's class is. *)
Record ObjectId : Type := mkObjectId {
  oid0 : byte; oid1 : byte; oid2 : byte; oid3 : byte;
  oid4 : byte; oid5 : byte; oid6 : byte; oid7 : byte;
  oid8 : byte; oid9 : byte; oid10 : byte; oid11 : byte
}.

Definition oid_bytes (o : ObjectId) : list byte :=
  [oid0 o; oid1 o; oid2 o; oid3 o; oid4 o; oid5 o;
   oid6 o; oid7 o; oid8 o; oid9 o; oid10 o; oid11 o].

(** [ObjectId.prototype.toHexString], which is also its [toJSON]: the
    canonical string of an identifier. *)
Definition toHexString (o : ObjectId) : string := Hex.encode (oid_bytes o).

(** [new ObjectId(id)] for a string [id], as the route parameter always is:
    a string of twenty-four hex digits gives the identifier, anything else
    makes the constructor throw ([None]), as in the current releases of the
    driver. *)
Definition parseObjectId (id : string) : option ObjectId :=
  match Hex.decode id with
  | Some [b0; b1; b2; b3; b4; b5; b6; b7; b8; b9; b10; b11] =>
      Some (mkObjectId b0 b1 b2 b3 b4 b5 b6 b7 b8 b9 b10 b11)
  | _ => None
  end.

Definition byte_eqb (a b : byte) : bool := Byte.eqb a b.

Definition oid_eqb (a b : ObjectId) : bool :=
  forallb (fun p => byte_eqb (fst p) (snd p))
          (combine (oid_bytes a) (oid_bytes b)).

(* ===================================================================== *)
(** ** Documents                                                          *)
(* ===================================================================== *)

(** The values a stored document or a parsed JSON body holds.  Numbers are
    kept as integers: no handler looks inside a number.  A nested object
    keeps the order of its fields, which the store's equality on embedded
    documents observes. *)
Inductive value : Type :=
| VNull
| VBool (b : bool)
| VNum (n : Z)
| VStr (s : string)
| VOid (o : ObjectId)
| VArr (l : list value)
| VObj (l : list (string * value)).

(** A top-level document, a request body, a [$set] argument: a JS object
    used as a map from field names to values. *)
Abbreviation doc := (gmap string value).

Fixpoint value_eqb (a b : value) {struct a} : bool :=
  match a, b with
  | VNull, VNull => true
  | VBool x, VBool y => Bool.eqb x y
  | VNum x, VNum y => Z.eqb x y
  | VStr x, VStr y => String.eqb x y
  | VOid x, VOid y => oid_eqb x y
  | VArr l, VArr m =>
      (fix go (l m : list value) {struct l} : bool :=
         match l, m with
         | [], [] => true
         | x :: l', y :: m' => value_eqb x y && go l' m'
         | _, _ => false
         end) l m
  | VObj l, VObj m =>
      (fix go (l m : list (string * value)) {struct l} : bool :=
         match l, m with
         | [], [] => true
         | (k, x) :: l', (k', y) :: m' =>
             String.eqb k k' && value_eqb x y && go l' m'
         | _, _ => false
         end) l m
  | _, _ => false
  end.

(** [JSON.stringify] view of a value: an ObjectId leaves the process as its
    hex string. *)
Fixpoint toJSON (v : value) : value :=
  match v with
  | VOid o => VStr (toHexString o)
  | VArr l => VArr (map toJSON l)
  | VObj l => VObj (map (fun p => (fst p, toJSON (snd p))) l)
  | _ => v
  end.

Definition is_array (v : value) : bool :=
  match v with VArr _ => true | _ => false end.

(** A query: field/value equality conditions, all of which must
    hold.  [find({})] is the empty query. *)
Definition query := list (string * value).

(** The store's equality condition [{ field: q }]: the field equals [q], or
    the field is an array one of whose elements equals [q]; a missing field
    only matches [null]. *)
Definition field_match (ov : option value) (q : value) : bool :=
  match ov with
  | None => value_eqb VNull q
  | Some v =>
      value_eqb v q
      || match v with
         | VArr l => existsb (fun e => value_eqb e q) l
         | _ => false
         end
  end.

Definition matches (f : query) (d : doc) : bool :=
  forallb (fun c => field_match (d !! fst c) (snd c)) f.

(* ===================================================================== *)
(** ** The process state and the effects of a handler                     *)
(* ===================================================================== *)

Inductive coll : Type := Notes | Folders.

(** One entry per call a handler issues on a collection handle. *)
Inductive store_call : Type :=
| CallInsertOne (c : coll) (d : doc)
| CallFind (c : coll) (q : query)
| CallFindOne (c : coll) (q : query)
| CallUpdateOne (c : coll) (q : query) (set : doc)
| CallDeleteOne (c : coll) (q : query).

(** What a handler's [catch (error)] can receive. *)
Inductive exn : Type :=
| BSONError          (* [new ObjectId(id)] on a malformed string *)
| MongoNetworkError  (* the store cannot be reached, or fails inside *)
| DuplicateKey       (* E11000: the [_id] is already in the collection *)
| BadIdValue         (* an array as [_id] *)
| ImmutableField.    (* [$set] would change [_id] *)

(** [notesCollection] and [folderCollection] are the two handles the module
    keeps at process scope; [pkIssued] counts the identifiers the driver's
    primary-key factory has handed out; [reachable] says whether a store
    call made now succeeds; [calls] is the trace of store calls and
    [console] what [console.error] printed. *)
Record world : Type := mkWorld {
  notesCollection : list doc;
  folderCollection : list doc;
  pkIssued : nat;
  reachable : bool;
  calls : list store_call;
  console : list string
}.

Definition M (A : Type) : Type := world -> (A + exn) * world.

#[global] Instance M_ret : MRet M := fun A a w => (inl a, w).

#[global] Instance M_bind : MBind M := fun A B f m w =>
  match m w with
  | (inl a, w') => f a w'
  | (inr e, w') => (inr e, w')
  end.

Definition throw {A : Type} (e : exn) : M A := fun w => (inr e, w).

(** [try { m } catch (error) { h error }]: what [m] did before it threw
    stays done. *)
Definition try_catch {A : Type} (m : M A) (h : exn -> M A) : M A := fun w =>
  match m w with
  | (inl a, w') => (inl a, w')
  | (inr e, w') => h e w'
  end.

Definition read (c : coll) : M (list doc) := fun w =>
  (inl match c with
       | Notes => notesCollection w
       | Folders => folderCollection w
       end, w).

Definition write (c : coll) (l : list doc) : M unit := fun w =>
  (inl tt,
   match c with
   | Notes => mkWorld l (folderCollection w) (pkIssued w) (reachable w)
                      (calls w) (console w)
   | Folders => mkWorld (notesCollection w) l (pkIssued w) (reachable w)
                        (calls w) (console w)
   end).

Definition record (k : store_call) : M unit := fun w =>
  (inl tt, mkWorld (notesCollection w) (folderCollection w) (pkIssued w)
                   (reachable w) (calls w ++ [k]) (console w)).

Definition console_error (label : string) : M unit := fun w =>
  (inl tt, mkWorld (notesCollection w) (folderCollection w) (pkIssued w)
                   (reachable w) (calls w) (console w ++ [label])).

(** The round trip to the server: it throws when the store is down. *)
Definition server : M unit := fun w =>
  if reachable w then (inl tt, w) else (inr MongoNetworkError, w).

(** [new ObjectId(id)]. *)
Definition newObjectId (id : string) : M ObjectId :=
  match parseObjectId id with
  | Some o => mret o
  | None => throw BSONError
  end.

(* ===================================================================== *)
(** ** The driver operations the handlers call                            *)
(* ===================================================================== *)

Record InsertOneResult : Type := mkInsertOneResult {
  acknowledged : bool;
  insertedId : value
}.

(** Of the driver's result objects the handlers read one count each. *)
Record UpdateResult : Type := mkUpdateResult { matchedCount : nat }.
Record DeleteResult : Type := mkDeleteResult { deletedCount : nat }.

Definition has_id (id : value) (d : doc) : bool :=
  match d !! "_id" with
  | Some v => value_eqb v id
  | None => false
  end.

Fixpoint replace_first (p : doc -> bool) (d' : doc) (l : list doc)
  : list doc :=
  match l with
  | [] => []
  | d :: l' => if p d then d' :: l' else d :: replace_first p d' l'
  end.

Fixpoint remove_first (p : doc -> bool) (l : list doc)
  : option (list doc) :=
  match l with
  | [] => None
  | d :: l' =>
      if p d then Some l'
      else match remove_first p l' with
           | Some r => Some (d :: r)
           | None => None
           end
  end.

(** [$set] would change [_id]: the update names the field with a value
    other than the one the document has. *)
Definition changes_id (set d : doc) : bool :=
  match set !! "_id" with
  | None => false
  | Some v => negb (has_id v d)
  end.

Section Driver.

(** The driver's primary-key factory: [createPk n] is the [n]-th
    identifier it hands out in this process. *)
Variable createPk : nat -> ObjectId.

Definition nextPk : M ObjectId := fun w =>
  (inl (createPk (pkIssued w)),
   mkWorld (notesCollection w) (folderCollection w) (S (pkIssued w))
           (reachable w) (calls w) (console w)).

(** [collection.insertOne(doc)]: a document without [_id] (or with a
    null one) gets an identifier from the factory, any other [_id] is
    kept as given; the collection's unique index on [_id] rejects a
    duplicate. *)
Definition insertOne (c : coll) (d : doc) : M InsertOneResult :=
  d' ← match d !! "_id" with
       | None | Some VNull => o ← nextPk; mret (<["_id" := VOid o]> d)
       | Some _ => mret d
       end;
  record (CallInsertOne c d');;
  server;;
  docs ← read c;
  let id := default VNull (d' !! "_id") in
  if is_array id then throw BadIdValue
  else if existsb (has_id id) docs then throw DuplicateKey
  else write c (docs ++ [d']);; mret (mkInsertOneResult true id).

End Driver.

(** [collection.find(q).toArray()]. *)
Definition find (c : coll) (q : query) : M (list doc) :=
  record (CallFind c q);;
  server;;
  docs ← read c;
  mret (List.filter (matches q) docs).

(** [collection.findOne(q)]: the first match, or [null]. *)
Definition findOne (c : coll) (q : query) : M (option doc) :=
  record (CallFindOne c q);;
  server;;
  docs ← read c;
  mret (List.find (matches q) docs).

(** [collection.updateOne(q, { $set: set })]: the first match gets every
    top-level field of [set]; the other fields stay.  The keys of [set] are
    read as names of top-level fields, which is what the store does with a
    key that holds no dot and no leading dollar ([plain_keys]); a dotted
    key, which the store reads as a path into the document, is not
    modelled. *)
Definition updateOne (c : coll) (q : query) (set : doc) : M UpdateResult :=
  record (CallUpdateOne c q set);;
  server;;
  docs ← read c;
  match List.find (matches q) docs with
  | None => mret (mkUpdateResult 0)
  | Some d =>
      if changes_id set d then throw ImmutableField
      else write c (replace_first (matches q) (set ∪ d) docs);;
           mret (mkUpdateResult 1)
  end.

(** [collection.deleteOne(q)]: the first match is removed. *)
Definition deleteOne (c : coll) (q : query) : M DeleteResult :=
  record (CallDeleteOne c q);;
  server;;
  docs ← read c;
  match remove_first (matches q) docs with
  | None => mret (mkDeleteResult 0)
  | Some docs' => write c docs';; mret (mkDeleteResult 1)
  end.

(* ===================================================================== *)
(** ** Requests and responses                                             *)
(* ===================================================================== *)

(** The method and path of a request, for the routes either entry point
    registers; [:id] is the path parameter. *)
Inductive route : Type :=
| GET_root
| POST_notes
| GET_notes
| GET_notes_id (id : string)
| PUT_notes_id (id : string)
| DELETE_notes_id (id : string)
| POST_folders
| GET_folders
| GET_folders_id (id : string)
| DELETE_folders_id (id : string).

(** [authorization] is [req.headers.authorization] ([None]: no such
    header); [body] is [req.body] as [express.json()] left it. *)
Record request : Type := mkRequest {
  target : route;
  authorization : option string;
  body : doc
}.

Inductive payload : Type :=
| Text (s : string)                     (* [res.send(s)] *)
| Message (s : string)                  (* [res.json({ message: s })] *)
| JsonDoc (d : doc)                     (* [res.json(note)] *)
| JsonDocs (l : list doc)               (* [res.json(notes)] *)
| JsonInsertOneResult (r : InsertOneResult)
| NoRoute.                              (* no handler registered *)

Record response : Type := mkResponse {
  status : nat;
  content : payload
}.

(** The claims of a verified token the handlers read. *)
Record DecodedIdToken : Type := mkDecodedIdToken { uid : string }.

(** [s.split(sep)] for a one-character separator. *)
Fixpoint split (sep : ascii) (s : string) : list string :=
  match s with
  | EmptyString => [EmptyString]
  | String c s' =>
      if Ascii.eqb c sep then EmptyString :: split sep s'
      else match split sep s' with
           | w :: ws => String c w :: ws
           | [] => [String c EmptyString]
           end
  end.

(** [authHeader.split(" ")[1]]: the credential the middleware hands to the
    verifier ([None] is JS's [undefined]). *)
Definition idToken (authHeader : string) : option string :=
  split " " authHeader !! 1%nat.

(** A handler that lets an exception escape gets Express's own 500. *)
Definition serve (m : M response) (w : world) : response * world :=
  match m w with
  | (inl r, w') => (r, w')
  | (inr _, w') => (mkResponse 500 (Text "Internal Server Error"), w')
  end.

(* ===================================================================== *)
(** ** The authenticated application                                      *)
(* ===================================================================== *)

Module Secured.
Section App.

Variable createPk : nat -> ObjectId.

(** [admin.auth().verifyIdToken]: the decoded token, or [None] when the
    call rejects. *)
Variable verifyIdToken : string -> option DecodedIdToken.

(** The middleware; [next] is the route's handler, run with [req.user]
    set.  The [try] around [next()] catches nothing of the handler: each
    handler is an async function with a catch of its own. *)
Definition authenticateFirebaseToken
    (req : request) (next : DecodedIdToken -> M response) : M response :=
  match authorization req with
  | None => mret (mkResponse 401 (Message "Unauthorized"))
  | Some authHeader =>
      if String.eqb authHeader "" || negb (String.prefix "Bearer " authHeader)
      then mret (mkResponse 401 (Message "Unauthorized"))
      else
        match idToken authHeader ≫= verifyIdToken with
        | Some decodedToken => next decodedToken
        | None =>
            console_error "Firebase auth error:";;
            mret (mkResponse 403 (Message "Invalid token"))
        end
  end.

Definition get_root : M response :=
  mret (mkResponse 200 (Text "Notes API is running...")).

Definition post_notes (req : request) (user : DecodedIdToken) : M response :=
  try_catch
    (let note := <["userId" := VStr (uid user)]> (body req) in
     result ← insertOne createPk Notes note;
     mret (mkResponse 201 (JsonInsertOneResult result)))
    (fun error =>
       console_error "Error creating note:";;
       mret (mkResponse 500 (Message "Failed to create note"))).

Definition get_notes (req : request) (user : DecodedIdToken) : M response :=
  try_catch
    (notes ← find Notes [("userId", VStr (uid user))];
     mret (mkResponse 200 (JsonDocs notes)))
    (fun error =>
       console_error "Error fetching notes:";;
       mret (mkResponse 500 (Message "Failed to fetch notes"))).

Definition get_notes_id (id : string) (req : request) (user : DecodedIdToken)
  : M response :=
  try_catch
    (oid ← newObjectId id;
     note ← findOne Notes [("_id", VOid oid); ("userId", VStr (uid user))];
     match note with
     | None => mret (mkResponse 404 (Message "Note not found"))
     | Some note => mret (mkResponse 200 (JsonDoc note))
     end)
    (fun error =>
       console_error "Error fetching note by ID:";;
       mret (mkResponse 400 (Message "Invalid note ID"))).

Definition put_notes_id (id : string) (req : request) (user : DecodedIdToken)
  : M response :=
  try_catch
    (let update := body req in
     oid ← newObjectId id;
     result ← updateOne Notes
                [("_id", VOid oid); ("userId", VStr (uid user))] update;
     match matchedCount result with
     | O => mret (mkResponse 404 (Message "Note not found"))
     | S _ => mret (mkResponse 200 (Message "Note updated successfully"))
     end)
    (fun error =>
       console_error "Error updating note:";;
       mret (mkResponse 500 (Message "Failed to update note"))).

Definition delete_notes_id (id : string) (req : request)
    (user : DecodedIdToken) : M response :=
  try_catch
    (oid ← newObjectId id;
     result ← deleteOne Notes
                [("_id", VOid oid); ("userId", VStr (uid user))];
     match deletedCount result with
     | O => mret (mkResponse 404 (Message "Note not found"))
     | S _ => mret (mkResponse 200 (Message "Note deleted"))
     end)
    (fun error =>
       console_error "Error deleting note:";;
       mret (mkResponse 500 (Message "Failed to delete note"))).

Definition post_folders (req : request) (user : DecodedIdToken)
  : M response :=
  try_catch
    (let folder := <["userId" := VStr (uid user)]> (body req) in
     result ← insertOne createPk Folders folder;
     mret (mkResponse 201 (JsonInsertOneResult result)))
    (fun error =>
       console_error "Error creating folder:";;
       mret (mkResponse 500 (Message "Failed to create folder"))).

Definition get_folders (req : request) (user : DecodedIdToken)
  : M response :=
  try_catch
    (folders ← find Folders [("userId", VStr (uid user))];
     mret (mkResponse 200 (JsonDocs folders)))
    (fun error =>
       console_error "Error fetching folders:";;
       mret (mkResponse 500 (Message "Failed to fetch folders"))).

Definition get_folders_id (id : string) (req : request)
    (user : DecodedIdToken) : M response :=
  try_catch
    (oid ← newObjectId id;
     folder ← findOne Folders
                [("_id", VOid oid); ("userId", VStr (uid user))];
     match folder with
     | None => mret (mkResponse 404 (Message "Folder not found"))
     | Some folder => mret (mkResponse 200 (JsonDoc folder))
     end)
    (fun error =>
       console_error "Error fetching folder by ID:";;
       mret (mkResponse 400 (Message "Invalid folder ID"))).

Definition delete_folders_id (id : string) (req : request)
    (user : DecodedIdToken) : M response :=
  try_catch
    (oid ← newObjectId id;
     result ← deleteOne Folders
                [("_id", VOid oid); ("userId", VStr (uid user))];
     match deletedCount result with
     | O => mret (mkResponse 404 (Message "Folder not found"))
     | S _ => mret (mkResponse 200 (Message "Folder deleted"))
     end)
    (fun error =>
       console_error "Error deleting folder:";;
       mret (mkResponse 500 (Message "Failed to delete folder"))).

(** The route table. *)
Definition handler (req : request) : M response :=
  match target req with
  | GET_root => get_root
  | POST_notes => authenticateFirebaseToken req (post_notes req)
  | GET_notes => authenticateFirebaseToken req (get_notes req)
  | GET_notes_id id => authenticateFirebaseToken req (get_notes_id id req)
  | PUT_notes_id id => authenticateFirebaseToken req (put_notes_id id req)
  | DELETE_notes_id id =>
      authenticateFirebaseToken req (delete_notes_id id req)
  | POST_folders => authenticateFirebaseToken req (post_folders req)
  | GET_folders => authenticateFirebaseToken req (get_folders req)
  | GET_folders_id id =>
      authenticateFirebaseToken req (get_folders_id id req)
  | DELETE_folders_id id =>
      authenticateFirebaseToken req (delete_folders_id id req)
  end.

Definition app (req : request) (w : world) : response * world :=
  serve (handler req) w.

End App.
End Secured.

(* ===================================================================== *)
(** ** [src/index.js]                                                     *)
(* ===================================================================== *)

Module Index.

Definition get_root : M response :=
  mret (mkResponse 200 (Text "Notes API is running...")).

Definition get_notes (req : request) : M response :=
  try_catch
    (notes ← find Notes [];
     mret (mkResponse 200 (JsonDocs notes)))
    (fun error =>
       console_error "Error fetching notes:";;
       mret (mkResponse 500 (Message "Failed to fetch notes"))).

Definition get_notes_id (id : string) (req : request) : M response :=
  try_catch
    (oid ← newObjectId id;
     note ← findOne Notes [("_id", VOid oid)];
     match note with
     | None => mret (mkResponse 404 (Message "Note not found"))
     | Some note => mret (mkResponse 200 (JsonDoc note))
     end)
    (fun error =>
       console_error "Error fetching note by ID:";;
       mret (mkResponse 400 (Message "Invalid note ID"))).

Definition get_folders (req : request) : M response :=
  try_catch
    (folders ← find Folders [];
     mret (mkResponse 200 (JsonDocs folders)))
    (fun error =>
       console_error "Error fetching folders:";;
       mret (mkResponse 500 (Message "Failed to fetch folders"))).

(** The route table: four routes, none behind a middleware. *)
Definition handler (req : request) : M response :=
  match target req with
  | GET_root => get_root
  | GET_notes => get_notes req
  | GET_notes_id id => get_notes_id id req
  | GET_folders => get_folders req
  | _ => mret (mkResponse 404 NoRoute)
  end.

Definition app (req : request) (w : world) : response * world :=
  serve (handler req) w.

End Index.

(* ===================================================================== *)
(** ** The first listing: the entry point before authentication          *)
(* ===================================================================== *)

Module Legacy.

Definition get_root : M response :=
  mret (mkResponse 200 (Text "Notes API is running...")).

Definition get_notes (req : request) : M response :=
  try_catch
    (notes ← find Notes [];
     mret (mkResponse 200 (JsonDocs notes)))
    (fun error =>
       console_error "Error fetching notes:";;
       mret (mkResponse 500 (Message "Failed to fetch notes"))).

(** The route table: the liveness text and the list of notes. *)
Definition handler (req : request) : M response :=
  match target req with
  | GET_root => get_root
  | GET_notes => get_notes req
  | _ => mret (mkResponse 404 NoRoute)
  end.

Definition app (req : request) (w : world) : response * world :=
  serve (handler req) w.

End Legacy.

(* ===================================================================== *)
(** ** Vocabulary of the properties                                       *)
(* ===================================================================== *)

Definition collection (c : coll) (w : world) : list doc :=
  match c with
  | Notes => notesCollection w
  | Folders => folderCollection w
  end.

Definition noun (c : coll) : string :=
  match c with
  | Notes => "Note"
  | Folders => "Folder"
  end.

Definition create_route (c : coll) : route :=
  match c with
  | Notes => POST_notes
  | Folders => POST_folders
  end.

Definition get_route (c : coll) (id : string) : route :=
  match c with
  | Notes => GET_notes_id id
  | Folders => GET_folders_id id
  end.

Definition delete_route (c : coll) (id : string) : route :=
  match c with
  | Notes => DELETE_notes_id id
  | Folders => DELETE_folders_id id
  end.

Definition list_route (c : coll) : route :=
  match c with
  | Notes => GET_notes
  | Folders => GET_folders
  end.

(** What the list route of a collection answers when its [try] block
    threw. *)
Definition list_failed (c : coll) : response :=
  mkResponse 500 (Message match c with
                          | Notes => "Failed to fetch notes"
                          | Folders => "Failed to fetch folders"
                          end).

(** The collection a route can write to, if any. *)
Definition writes_to (r : route) : option coll :=
  match r with
  | POST_notes | PUT_notes_id _ | DELETE_notes_id _ => Some Notes
  | POST_folders | DELETE_folders_id _ => Some Folders
  | _ => None
  end.

(** The routes of the [GET] method. *)
Definition is_get (r : route) : bool :=
  match r with
  | GET_root | GET_notes | GET_notes_id _ | GET_folders | GET_folders_id _ =>
      true
  | _ => false
  end.

(** The string holds no space. *)
Fixpoint no_space (t : string) : bool :=
  match t with
  | EmptyString => true
  | String c t' => negb (Ascii.eqb c " ") && no_space t'
  end.

(** The response hands the document [d] to the client. *)
Definition returned (d : doc) (res : response) : Prop :=
  match content res with
  | JsonDoc x => x = d
  | JsonDocs l => In d l
  | _ => False
  end.

(** A key that [$set] reads as the name of a top-level field: not empty,
    no dot (a dotted key is a path into the document), no leading dollar. *)
Fixpoint no_dot (k : string) : bool :=
  match k with
  | EmptyString => true
  | String c k' => negb (Ascii.eqb c ".") && no_dot k'
  end.

Definition plain_name (k : string) : bool :=
  match k with
  | EmptyString => false
  | String c _ => negb (Ascii.eqb c "$") && no_dot k
  end.

Definition plain_keys (b : doc) : bool :=
  forallb (fun kv => plain_name (fst kv)) (map_to_list b).

(** The owner condition every scoped query carries. *)
Definition owner_query (who : string) : query := [("userId", VStr who)].

(** The scoped query of the by-id routes. *)
Definition scoped_query (o : ObjectId) (who : string) : query :=
  [("_id", VOid o); ("userId", VStr who)].

(** The routes that address one document of a collection; there is no
    update route for folders. *)
Definition by_id_routes (c : coll) (id : string) : list route :=
  match c with
  | Notes => [GET_notes_id id; PUT_notes_id id; DELETE_notes_id id]
  | Folders => [GET_folders_id id; DELETE_folders_id id]
  end.

(** Every route but the liveness text sits behind the middleware. *)
Definition protected (r : route) : bool :=
  match r with
  | GET_root => false
  | _ => true
  end.

Definition not_found (c : coll) : response :=
  mkResponse 404 (Message (noun c ++ " not found")).

(** What the create route of a collection answers, and prints, when its
    [try] block threw. *)
Definition create_failed (c : coll) : response :=
  mkResponse 500 (Message match c with
                          | Notes => "Failed to create note"
                          | Folders => "Failed to create folder"
                          end).

Definition create_label (c : coll) : string :=
  match c with
  | Notes => "Error creating note:"
  | Folders => "Error creating folder:"
  end.

(** The request carries a bearer credential that the verifier accepts as
    [user]. *)
Definition authenticates (verifyIdToken : string -> option DecodedIdToken)
    (req : request) (user : DecodedIdToken) : Prop :=
  exists authHeader tok,
    authorization req = Some authHeader
    /\ String.prefix "Bearer " authHeader = true
    /\ idToken authHeader = Some tok
    /\ verifyIdToken tok = Some user.

(** The invariant the store keeps on a collection: every document has an
    [_id], no [_id] is an array, and no two documents share one. *)
Fixpoint unique_index (docs : list doc) : bool :=
  match docs with
  | [] => true
  | d :: docs' =>
      match d !! "_id" with
      | None => false
      | Some v =>
          negb (is_array v) && negb (existsb (has_id v) docs')
          && unique_index docs'
      end
  end.

Definition store_wf (w : world) : bool :=
  unique_index (notesCollection w) && unique_index (folderCollection w).

(** A computation that keeps the invariant. *)
Definition preserves {A : Type} (m : M A) : Prop :=
  forall w, store_wf w = true -> store_wf (snd (m w)) = true.

(** The document identified by [o] exists and carries the owner identifier
    of somebody other than [who]. *)
Definition owned_by_other (who : string) (o : ObjectId) (docs : list doc)
  : Prop :=
  exists d owner,
    d ∈ docs /\ d !! "_id" = Some (VOid o)
    /\ d !! "userId" = Some (VStr owner) /\ owner <> who.

(** No document is identified by [o]. *)
Definition absent (o : ObjectId) (docs : list doc) : Prop :=
  forall d, d ∈ docs -> d !! "_id" <> Some (VOid o).

(** A body that leaves the choice of the identifier to the driver. *)
Definition leaves_id_to_driver (b : doc) : bool :=
  match b !! "_id" with
  | None | Some VNull => true
  | Some _ => false
  end.

(* ===================================================================== *)
(** ** A sample deployment, for evaluating the handlers                   *)
(* ===================================================================== *)

Module Sample.

(** A key factory that counts in the last byte. *)
Definition pk (n : nat) : ObjectId :=
  mkObjectId x00 x00 x00 x00 x00 x00 x00 x00 x00 x00 x00
    (match Byte.of_N (N.of_nat n mod 256) with
     | Some b => b
     | None => x00
     end).

(** A verifier that knows two users. *)
Definition verify (tok : string) : option DecodedIdToken :=
  if String.eqb tok "tok-u1" then Some (mkDecodedIdToken "u1")
  else if String.eqb tok "tok-u2" then Some (mkDecodedIdToken "u2")
  else None.

Definition u1 : DecodedIdToken := mkDecodedIdToken "u1".
Definition u2 : DecodedIdToken := mkDecodedIdToken "u2".

Definition as_u1 (r : route) (b : doc) : request :=
  mkRequest r (Some "Bearer tok-u1") b.
Definition as_u2 (r : route) (b : doc) : request :=
  mkRequest r (Some "Bearer tok-u2") b.

(** The store right after start-up, reachable or not. *)
Definition empty (up : bool) : world := mkWorld [] [] 0 up [] [].

Definition n1 : string := toHexString (pk 0).

Definition note_A : doc :=
  <["_id" := VOid (pk 0)]>
    (<["userId" := VStr "u1"]> {["title" := VStr "A"]}).

(** One note, one folder, both of [u1]. *)
Definition one_each (up : bool) : world :=
  mkWorld [note_A] [note_A] 1 up [] [].

Definition app : request -> world -> response * world :=
  Secured.app pk verify.

End Sample.

(* ===================================================================== *)
(** * Properties                                                          *)
(* ===================================================================== *)

(** ** Identifiers and their hex strings *)

Lemma byte_of_digits_hi_lo (b : byte) :
  Hex.byte_of_digits (Hex.hi b) (Hex.lo b) = Some b.
Proof. destruct b; vm_compute; reflexivity. Qed.

Lemma decode_encode (bs : list byte) : Hex.decode (Hex.encode bs) = Some bs.
Proof.
  induction bs as [|b bs IH]; [reflexivity|].
  cbn [Hex.encode Hex.decode].
  rewrite byte_of_digits_hi_lo, IH. reflexivity.
Qed.

Lemma parse_toHexString (o : ObjectId) : parseObjectId (toHexString o) = Some o.
Proof.
  unfold parseObjectId, toHexString. rewrite decode_encode.
  destruct o; reflexivity.
Qed.

Lemma oid_eqb_eq (a b : ObjectId) : oid_eqb a b = true <-> a = b.
Proof.
  split.
  - destruct a, b. unfold oid_eqb, byte_eqb. cbn.
    rewrite !andb_true_iff.
    intros (H0 & H1 & H2 & H3 & H4 & H5 & H6 & H7 & H8 & H9 & H10 & H11 & _).
    apply Byte.byte_dec_bl in H0, H1, H2, H3, H4, H5, H6, H7, H8, H9, H10, H11.
    congruence.
  - intros ->. destruct b. unfold oid_eqb, byte_eqb. cbn.
    rewrite !Byte.byte_dec_lb by reflexivity. reflexivity.
Qed.

(** ** Equality of values *)

Lemma value_ind_nested (P : value -> Prop)
  (HNull : P VNull)
  (HBool : forall b, P (VBool b))
  (HNum : forall n, P (VNum n))
  (HStr : forall s, P (VStr s))
  (HOid : forall o, P (VOid o))
  (HArr : forall l, Forall P l -> P (VArr l))
  (HObj : forall l, Forall (fun p => P (snd p)) l -> P (VObj l)) :
  forall v, P v.
Proof.
  fix IH 1. intros [ | b | n | s | o | l | l ].
  - exact HNull.
  - apply HBool.
  - apply HNum.
  - apply HStr.
  - apply HOid.
  - apply HArr. revert l. fix IHl 1. intros [|x l].
    + constructor.
    + constructor; [apply IH | apply IHl].
  - apply HObj. revert l. fix IHl 1. intros [|[k x] l].
    + constructor.
    + constructor; [apply IH | apply IHl].
Qed.

Lemma value_eqb_eq (a b : value) : value_eqb a b = true <-> a = b.
Proof.
  revert b. induction a as [ | x | x | x | x | l IHl | l IHl ]
    using value_ind_nested; intros [ | y | y | y | y | m | m ];
    cbn [value_eqb];
    try (split; [discriminate | congruence]); try tauto.
  - rewrite Bool.eqb_true_iff. split; congruence.
  - rewrite Z.eqb_eq. split; congruence.
  - rewrite String.eqb_eq. split; congruence.
  - rewrite oid_eqb_eq. split; congruence.
  - enough (Hgo : forall m',
      (fix go (l m : list value) {struct l} : bool :=
         match l, m with
         | [], [] => true
         | x :: l', y :: m' => value_eqb x y && go l' m'
         | _, _ => false
         end) l m' = true <-> l = m').
    { rewrite Hgo. split; congruence. }
    induction IHl as [|x l Hx _ IH]; intros [|y m']; cbn;
      try (split; [discriminate | congruence]); try tauto.
    rewrite andb_true_iff, Hx, IH. split; [intros [-> ->]; reflexivity|].
    intros H; injection H; auto.
  - enough (Hgo : forall m',
      (fix go (l m : list (string * value)) {struct l} : bool :=
         match l, m with
         | [], [] => true
         | (k, x) :: l', (k', y) :: m' =>
             String.eqb k k' && value_eqb x y && go l' m'
         | _, _ => false
         end) l m' = true <-> l = m').
    { rewrite Hgo. split; congruence. }
    induction IHl as [|[k x] l Hx _ IH]; intros [|[k' y] m']; cbn;
      try (split; [discriminate | congruence]); try tauto.
    cbn in Hx.
    rewrite !andb_true_iff, String.eqb_eq, Hx, IH.
    split; [intros [[-> ->] ->]; reflexivity|].
    intros H; injection H; auto.
Qed.

Lemma value_eqb_refl (a : value) : value_eqb a a = true.
Proof. apply value_eqb_eq. reflexivity. Qed.

Lemma value_eqb_sym (a b : value) : value_eqb a b = value_eqb b a.
Proof.
  destruct (value_eqb a b) eqn:E.
  - apply value_eqb_eq in E. subst. symmetry. apply value_eqb_refl.
  - destruct (value_eqb b a) eqn:E'; [|reflexivity].
    apply value_eqb_eq in E'. subst. rewrite value_eqb_refl in E.
    discriminate.
Qed.

(** ** The middleware *)

Lemma prefix_nonempty (authHeader : string) :
  String.prefix "Bearer " authHeader = true ->
  String.eqb authHeader "" = false.
Proof. destruct authHeader; [discriminate | reflexivity]. Qed.

Lemma bearer_split (authHeader : string) :
  String.prefix "Bearer " authHeader = true ->
  exists rest, authHeader = String.append "Bearer " rest.
Proof.
  intros H. apply String.prefix_correct in H. cbn in H.
  do 7 (destruct authHeader as [|? authHeader]; [discriminate H|];
        cbn in H; injection H as -> H).
  exists authHeader. reflexivity.
Qed.

(** A header with the scheme prefix always yields a credential: the split
    has a second piece. *)
Lemma idToken_bearer (authHeader : string) :
  String.prefix "Bearer " authHeader = true ->
  exists tok, idToken authHeader = Some tok.
Proof.
  intros H. destruct (bearer_split _ H) as [rest ->].
  assert (Hs : forall s, exists w ws, split " " s = w :: ws).
  { induction s as [|c s IH]; cbn; [eauto|].
    destruct (Ascii.eqb c " "); [eauto|].
    destruct IH as (w & ws & ->). eauto. }
  destruct (Hs rest) as (w & ws & E).
  assert (Hb : split " " (String.append "Bearer " rest)
               = "Bearer" :: split " " rest) by reflexivity.
  unfold idToken. rewrite Hb, E. eauto.
Qed.

Section Middleware.

Variable verifyIdToken : string -> option DecodedIdToken.

Lemma authenticate_next (req : request) (user : DecodedIdToken)
    (next : DecodedIdToken -> M response) :
  authenticates verifyIdToken req user ->
  Secured.authenticateFirebaseToken verifyIdToken req next = next user.
Proof.
  intros (h & tok & Hh & Hp & Ht & Hv).
  unfold Secured.authenticateFirebaseToken.
  rewrite Hh, (prefix_nonempty _ Hp), Hp. cbn. rewrite Ht. cbn.
  rewrite Hv. reflexivity.
Qed.

Lemma authenticate_missing (req : request)
    (next : DecodedIdToken -> M response) (w : world) :
  (authorization req = None
   \/ exists h, authorization req = Some h
                /\ String.prefix "Bearer " h = false) ->
  Secured.authenticateFirebaseToken verifyIdToken req next w
  = (inl (mkResponse 401 (Message "Unauthorized")), w).
Proof.
  unfold Secured.authenticateFirebaseToken.
  intros [-> | (h & -> & Hp)]; [reflexivity|].
  rewrite Hp. rewrite orb_true_r. reflexivity.
Qed.

Lemma authenticate_invalid (req : request)
    (next : DecodedIdToken -> M response) (w : world) (h : string) :
  authorization req = Some h ->
  String.prefix "Bearer " h = true ->
  idToken h ≫= verifyIdToken = None ->
  Secured.authenticateFirebaseToken verifyIdToken req next w
  = (inl (mkResponse 403 (Message "Invalid token")),
     mkWorld (notesCollection w) (folderCollection w) (pkIssued w)
             (reachable w) (calls w)
             (console w ++ ["Firebase auth error:"])).
Proof.
  intros Hh Hp Hv. unfold Secured.authenticateFirebaseToken.
  rewrite Hh, (prefix_nonempty _ Hp), Hp. cbn. rewrite Hv. reflexivity.
Qed.

End Middleware.

(** C4. On a protected route, a request without an authorization header, or
    with one that lacks the [Bearer ] prefix, is answered 401; a request
    whose credential the verifier rejects is answered 403.  In both cases
    no store operation has run: the two collections and the trace of store
    calls are what they were. *)
Theorem auth_rejected_before_store
    (createPk : nat -> ObjectId)
    (verifyIdToken : string -> option DecodedIdToken)
    (req : request) (w : world) :
  protected (target req) = true ->
  ((authorization req = None
    \/ exists h, authorization req = Some h
                 /\ String.prefix "Bearer " h = false) ->
   Secured.app createPk verifyIdToken req w
   = (mkResponse 401 (Message "Unauthorized"), w))
  /\ (forall h tok,
        authorization req = Some h ->
        String.prefix "Bearer " h = true ->
        idToken h = Some tok ->
        verifyIdToken tok = None ->
        let (res, w') := Secured.app createPk verifyIdToken req w in
        res = mkResponse 403 (Message "Invalid token")
        /\ notesCollection w' = notesCollection w
        /\ folderCollection w' = folderCollection w
        /\ calls w' = calls w).
Proof.
  intros Hprot. split.
  - intros Hmiss. unfold Secured.app, serve, Secured.handler.
    destruct (target req); try discriminate Hprot;
      rewrite authenticate_missing by exact Hmiss; reflexivity.
  - intros h tok Hh Hp Ht Hv.
    assert (Hbind : idToken h ≫= verifyIdToken = None)
      by (rewrite Ht; exact Hv).
    unfold Secured.app, serve, Secured.handler.
    destruct (target req); try discriminate Hprot;
      rewrite (authenticate_invalid _ _ _ _ h Hh Hp Hbind); cbn; auto.
Qed.

Lemma auth_rejected_before_store_witness :
  (Sample.app (mkRequest (DELETE_notes_id Sample.n1) None ∅)
              (Sample.one_each true)
   = (mkResponse 401 (Message "Unauthorized"), Sample.one_each true))
  /\ (let (res, w') :=
        Sample.app (mkRequest (DELETE_notes_id Sample.n1)
                              (Some "Bearer expired") ∅)
                   (Sample.one_each true) in
      res = mkResponse 403 (Message "Invalid token")
      /\ notesCollection w' = notesCollection (Sample.one_each true)
      /\ folderCollection w' = folderCollection (Sample.one_each true)
      /\ calls w' = calls (Sample.one_each true)).
Proof.
  split.
  - apply (auth_rejected_before_store Sample.pk Sample.verify
             (mkRequest (DELETE_notes_id Sample.n1) None ∅)
             (Sample.one_each true)); [reflexivity | left; reflexivity].
  - apply (auth_rejected_before_store Sample.pk Sample.verify
             (mkRequest (DELETE_notes_id Sample.n1) (Some "Bearer expired") ∅)
             (Sample.one_each true) eq_refl) with (h := "Bearer expired")
                                                  (tok := "expired");
      reflexivity.
Defined.

(** ** The driver operations, run *)

Lemma collection_record (c : coll) (k : store_call) (w : world) :
  collection c (snd (record k w)) = collection c w.
Proof. destruct c; reflexivity. Qed.

Lemma collection_console (c : coll) (s : string) (w : world) :
  collection c (snd (console_error s w)) = collection c w.
Proof. destruct c; reflexivity. Qed.

Lemma collection_write (c : coll) (l : list doc) (w : world) :
  collection c (snd (write c l w)) = l.
Proof. destruct c; reflexivity. Qed.

Lemma find_run (c : coll) (q : query) (w : world) :
  find c q w
  = (if reachable w
     then inl (List.filter (matches q) (collection c w))
     else inr MongoNetworkError,
     snd (record (CallFind c q) w)).
Proof. destruct w as [n f p [] k l], c; reflexivity. Qed.

Lemma findOne_run (c : coll) (q : query) (w : world) :
  findOne c q w
  = (if reachable w
     then inl (List.find (matches q) (collection c w))
     else inr MongoNetworkError,
     snd (record (CallFindOne c q) w)).
Proof. destruct w as [n f p [] k l], c; reflexivity. Qed.

Lemma deleteOne_run (c : coll) (q : query) (w : world) :
  deleteOne c q w
  = let w1 := snd (record (CallDeleteOne c q) w) in
    if reachable w
    then match remove_first (matches q) (collection c w) with
         | None => (inl (mkDeleteResult 0), w1)
         | Some docs' => (inl (mkDeleteResult 1), snd (write c docs' w1))
         end
    else (inr MongoNetworkError, w1).
Proof.
  destruct w as [n f p [] k l], c; cbn; try reflexivity;
    unfold deleteOne, mbind, M_bind, record, server, read; cbn;
    match goal with
    | |- context [remove_first ?p ?l] => destruct (remove_first p l)
    end; reflexivity.
Qed.

Lemma updateOne_run (c : coll) (q : query) (set : doc) (w : world) :
  updateOne c q set w
  = let w1 := snd (record (CallUpdateOne c q set) w) in
    if reachable w
    then match List.find (matches q) (collection c w) with
         | None => (inl (mkUpdateResult 0), w1)
         | Some d =>
             if changes_id set d then (inr ImmutableField, w1)
             else (inl (mkUpdateResult 1),
                   snd (write c (replace_first (matches q) (set ∪ d)
                                               (collection c w)) w1))
         end
    else (inr MongoNetworkError, w1).
Proof.
  destruct w as [n f p [] k l], c; cbn; try reflexivity;
    unfold updateOne, mbind, M_bind, record, server, read; cbn;
    match goal with
    | |- context [List.find ?p ?l] => destruct (List.find p l) as [d|]
    end; try reflexivity; destruct (changes_id set d); reflexivity.
Qed.

(** The document [insertOne] sends, and the state of the key factory after
    it was asked (or not). *)
Lemma insertOne_run (createPk : nat -> ObjectId) (c : coll) (d : doc)
    (w : world) :
  insertOne createPk c d w
  = let gen := leaves_id_to_driver d in
    let d' := if gen then <["_id" := VOid (createPk (pkIssued w))]> d
              else d in
    let w0 := if gen then snd (nextPk createPk w) else w in
    let w1 := snd (record (CallInsertOne c d') w0) in
    let id := default VNull (d' !! "_id") in
    if reachable w
    then if is_array id then (inr BadIdValue, w1)
         else if existsb (has_id id) (collection c w)
              then (inr DuplicateKey, w1)
              else (inl (mkInsertOneResult true id),
                    snd (write c (collection c w ++ [d']) w1))
    else (inr MongoNetworkError, w1).
Proof.
  unfold insertOne, leaves_id_to_driver.
  destruct (d !! "_id") as [v|] eqn:E.
  - destruct v; destruct w as [wn wf wp [] wk wl], c;
      unfold mbind, M_bind, mret, M_ret, nextPk, record, server, read; cbn;
      rewrite ?E, ?lookup_insert_eq; cbn; try reflexivity;
      match goal with
      | |- context [existsb ?p ?l] => destruct (existsb p l)
      end; reflexivity.
  - destruct w as [wn wf wp [] wk wl], c;
      unfold mbind, M_bind, mret, M_ret, nextPk, record, server, read; cbn;
      rewrite ?E, ?lookup_insert_eq; cbn; try reflexivity;
      match goal with
      | |- context [existsb ?p ?l] => destruct (existsb p l)
      end; reflexivity.
Qed.

(** ** The unique index on [_id] *)

Lemma has_id_lookup (v : value) (d : doc) :
  d !! "_id" = Some v -> has_id v d = true.
Proof. unfold has_id. intros ->. apply value_eqb_refl. Qed.

Lemma has_id_inv (v : value) (d : doc) :
  has_id v d = true -> d !! "_id" = Some v.
Proof.
  unfold has_id. destruct (d !! "_id") as [u|]; [|discriminate].
  intros H. apply value_eqb_eq in H. congruence.
Qed.

Lemma existsb_has_id (v : value) (docs : list doc) (d : doc) :
  d ∈ docs -> d !! "_id" = Some v -> existsb (has_id v) docs = true.
Proof.
  intros Hin Hid. apply existsb_exists. exists d. split.
  - apply list_elem_of_In, Hin.
  - apply has_id_lookup, Hid.
Qed.

Lemma unique_index_cons (d : doc) (docs : list doc) :
  unique_index (d :: docs) = true ->
  exists v, d !! "_id" = Some v /\ is_array v = false
            /\ existsb (has_id v) docs = false
            /\ unique_index docs = true.
Proof.
  cbn. destruct (d !! "_id") as [v|]; [|discriminate].
  rewrite !andb_true_iff, !negb_true_iff. intros [[Ha He] Hu]. eauto.
Qed.

Lemma unique_index_elem (docs : list doc) (d : doc) :
  unique_index docs = true -> d ∈ docs ->
  exists v, d !! "_id" = Some v /\ is_array v = false.
Proof.
  induction docs as [|x docs IH]; intros Hu Hin.
  - apply elem_of_nil in Hin. contradiction.
  - destruct (unique_index_cons _ _ Hu) as (v & Hv & Ha & _ & Hu').
    apply elem_of_cons in Hin as [-> | Hin]; eauto.
Qed.

Lemma unique_index_inj (docs : list doc) (d1 d2 : doc) :
  unique_index docs = true -> d1 ∈ docs -> d2 ∈ docs ->
  d1 !! "_id" = d2 !! "_id" -> d1 = d2.
Proof.
  induction docs as [|x docs IH]; intros Hu H1 H2 Heq.
  - apply elem_of_nil in H1. contradiction.
  - destruct (unique_index_cons _ _ Hu) as (v & Hv & _ & He & Hu').
    apply elem_of_cons in H1 as [-> | H1];
      apply elem_of_cons in H2 as [-> | H2]; auto.
    + rewrite Hv in Heq.
      rewrite (existsb_has_id v docs d2 H2 (eq_sym Heq)) in He. discriminate.
    + rewrite Hv in Heq.
      rewrite (existsb_has_id v docs d1 H1 Heq) in He. discriminate.
Qed.

(** On a document whose [_id] is no array, the condition [{ _id: o }]
    holds only of the identifier itself. *)
Lemma matches_id_inv (o : ObjectId) (q : query) (d : doc) (v : value) :
  d !! "_id" = Some v -> is_array v = false ->
  matches (("_id", VOid o) :: q) d = true ->
  v = VOid o /\ matches q d = true.
Proof.
  intros Hv Ha. unfold matches. cbn [forallb fst snd]. rewrite Hv.
  rewrite andb_true_iff. intros [Hm Hq]. split; [|exact Hq].
  destruct v; cbn in Hm, Ha; try discriminate.
  rewrite orb_false_r in Hm. apply oid_eqb_eq in Hm. congruence.
Qed.

Lemma find_none_all (p : doc -> bool) (docs : list doc) :
  (forall d, d ∈ docs -> p d = false) -> List.find p docs = None.
Proof.
  induction docs as [|x docs IH]; intros H; [reflexivity|].
  cbn. rewrite (H x) by (apply elem_of_cons; auto).
  apply IH. intros d Hd. apply H, elem_of_cons. auto.
Qed.

Lemma remove_first_none_all (p : doc -> bool) (docs : list doc) :
  (forall d, d ∈ docs -> p d = false) -> remove_first p docs = None.
Proof.
  induction docs as [|x docs IH]; intros H; [reflexivity|].
  cbn. rewrite (H x) by (apply elem_of_cons; auto).
  rewrite IH; [reflexivity|]. intros d Hd. apply H, elem_of_cons. auto.
Qed.

(** The scoped query of a requester matches nothing when the document it
    names belongs to somebody else... *)
Lemma scoped_query_other (who : string) (o : ObjectId) (docs : list doc) :
  unique_index docs = true -> owned_by_other who o docs ->
  forall d, d ∈ docs ->
    matches [("_id", VOid o); ("userId", VStr who)] d = false.
Proof.
  intros Hu (d0 & owner & Hin0 & Hid0 & Hown & Hne) d Hin.
  destruct (matches _ d) eqn:Hm; [|reflexivity].
  destruct (unique_index_elem _ _ Hu Hin) as (v & Hv & Ha).
  destruct (matches_id_inv _ _ _ _ Hv Ha Hm) as [-> Hq].
  assert (d = d0) by (apply (unique_index_inj docs); congruence). subst d.
  unfold matches in Hq. cbn in Hq. rewrite Hown in Hq. cbn in Hq.
  rewrite orb_false_r, andb_true_r in Hq.
  apply String.eqb_eq in Hq. contradiction.
Qed.

(** ... and when it names no document at all. *)
Lemma scoped_query_absent (o : ObjectId) (q : query) (docs : list doc) :
  unique_index docs = true -> absent o docs ->
  forall d, d ∈ docs -> matches (("_id", VOid o) :: q) d = false.
Proof.
  intros Hu Habs d Hin.
  destruct (matches _ d) eqn:Hm; [|reflexivity].
  destruct (unique_index_elem _ _ Hu Hin) as (v & Hv & Ha).
  destruct (matches_id_inv _ _ _ _ Hv Ha Hm) as [-> _].
  exfalso. exact (Habs d Hin Hv).
Qed.

(** ** Requests that address one document *)

Section ById.

Variable createPk : nat -> ObjectId.
Variable verifyIdToken : string -> option DecodedIdToken.

Let app := Secured.app createPk verifyIdToken.

(** What a by-id route answers when its scoped query matches nothing; the
    answer while the store is down depends on the route only. *)
Lemma by_id_unmatched (c : coll) (id : string) (o : ObjectId)
    (req : request) (user : DecodedIdToken) :
  authenticates verifyIdToken req user ->
  target req ∈ by_id_routes c id ->
  parseObjectId id = Some o ->
  exists down : response,
    forall w,
      (forall d, d ∈ collection c w ->
         matches [("_id", VOid o); ("userId", VStr (uid user))] d = false) ->
      fst (app req w) = (if reachable w then not_found c else down)
      /\ forall c', collection c' (snd (app req w)) = collection c' w.
Proof.
  intros Hauth Hroute Hparse.
  destruct c; cbn in Hroute;
    repeat (apply elem_of_cons in Hroute as [Hroute | Hroute]);
    try (apply elem_of_nil in Hroute; contradiction).
  all: eexists; intros w Hnone;
    unfold app, Secured.app, serve, Secured.handler; rewrite Hroute;
    rewrite (authenticate_next _ _ user) by exact Hauth;
    unfold Secured.get_notes_id, Secured.put_notes_id,
      Secured.delete_notes_id, Secured.get_folders_id,
      Secured.delete_folders_id, try_catch, mbind, M_bind, newObjectId;
    rewrite Hparse; cbv beta iota delta [mret M_ret];
    rewrite ?findOne_run, ?updateOne_run, ?deleteOne_run;
    rewrite ?(find_none_all _ _ Hnone), ?(remove_first_none_all _ _ Hnone);
    cbv zeta; destruct (reachable w); cbn;
    (split; [reflexivity | intros []; reflexivity]).
Qed.

End ById.

(** C1. A read, update or delete by identifier, issued by a verified user
    who is not the owner of the document the identifier names, is answered
    exactly as the same request is answered by a store in which the
    identifier names no document: with the store up that answer is the 404
    of the route, and the collections are left as they were. *)
Theorem non_owner_sees_not_found
    (createPk : nat -> ObjectId)
    (verifyIdToken : string -> option DecodedIdToken)
    (c : coll) (id : string) (o : ObjectId)
    (req : request) (user : DecodedIdToken) (w w0 : world) :
  authenticates verifyIdToken req user ->
  target req ∈ by_id_routes c id ->
  parseObjectId id = Some o ->
  unique_index (collection c w) = true ->
  unique_index (collection c w0) = true ->
  owned_by_other (uid user) o (collection c w) ->
  absent o (collection c w0) ->
  reachable w = reachable w0 ->
  fst (Secured.app createPk verifyIdToken req w)
  = fst (Secured.app createPk verifyIdToken req w0)
  /\ (reachable w = true ->
      fst (Secured.app createPk verifyIdToken req w) = not_found c)
  /\ (forall c',
        collection c' (snd (Secured.app createPk verifyIdToken req w))
        = collection c' w).
Proof.
  intros Hauth Hroute Hparse Hu Hu0 Hother Habs Hup.
  destruct (by_id_unmatched createPk verifyIdToken c id o req user
              Hauth Hroute Hparse) as [down Hrun].
  destruct (Hrun w (scoped_query_other _ _ _ Hu Hother)) as [Hw Hsame].
  destruct (Hrun w0 (scoped_query_absent _ _ _ Hu0 Habs)) as [Hw0 _].
  split; [|split].
  - rewrite Hw, Hw0, Hup. reflexivity.
  - intros Htrue. rewrite Hw, Htrue. reflexivity.
  - exact Hsame.
Qed.

Lemma non_owner_sees_not_found_witness :
  fst (Sample.app (Sample.as_u2 (GET_notes_id Sample.n1) ∅)
                  (Sample.one_each true))
  = fst (Sample.app (Sample.as_u2 (GET_notes_id Sample.n1) ∅)
                    (Sample.empty true))
  /\ (reachable (Sample.one_each true) = true ->
      fst (Sample.app (Sample.as_u2 (GET_notes_id Sample.n1) ∅)
                      (Sample.one_each true)) = not_found Notes)
  /\ (forall c',
        collection c'
          (snd (Sample.app (Sample.as_u2 (GET_notes_id Sample.n1) ∅)
                           (Sample.one_each true)))
        = collection c' (Sample.one_each true)).
Proof.
  apply (non_owner_sees_not_found Sample.pk Sample.verify Notes Sample.n1
           (Sample.pk 0) (Sample.as_u2 (GET_notes_id Sample.n1) ∅)
           Sample.u2 (Sample.one_each true) (Sample.empty true)).
  - exists "Bearer tok-u2", "tok-u2".
    split; [|split; [|split]]; reflexivity.
  - apply elem_of_cons. left. reflexivity.
  - apply parse_toHexString.
  - vm_compute. reflexivity.
  - reflexivity.
  - exists Sample.note_A, "u1". split; [|split; [|split]].
    + apply elem_of_cons. left. reflexivity.
    + vm_compute. reflexivity.
    + vm_compute. reflexivity.
    + discriminate.
  - intros d Hd. apply elem_of_nil in Hd. contradiction.
  - reflexivity.
Defined.

(** ** Removing the first match *)

Lemma remove_first_elem (p : doc -> bool) (docs docs' : list doc) :
  remove_first p docs = Some docs' ->
  forall d, d ∈ docs' -> d ∈ docs.
Proof.
  revert docs'. induction docs as [|x docs IH]; intros docs' H d Hd.
  - discriminate H.
  - cbn in H. destruct (p x).
    + injection H as <-. apply elem_of_cons. auto.
    + destruct (remove_first p docs) as [r|]; [|discriminate H].
      injection H as <-. apply elem_of_cons in Hd as [-> | Hd].
      * apply elem_of_cons. auto.
      * apply elem_of_cons. right. exact (IH r eq_refl d Hd).
Qed.

Lemma remove_first_hit (p : doc -> bool) (docs docs' : list doc) :
  remove_first p docs = Some docs' ->
  exists m, m ∈ docs /\ p m = true.
Proof.
  revert docs'. induction docs as [|x docs IH]; intros docs' H.
  - discriminate H.
  - cbn in H. destruct (p x) eqn:Hx.
    + exists x. split; [apply elem_of_cons; auto | exact Hx].
    + destruct (remove_first p docs) as [r|]; [|discriminate H].
      destruct (IH r eq_refl) as (m & Hm & Hp).
      exists m. split; [apply elem_of_cons; auto | exact Hp].
Qed.

Lemma remove_first_some (p : doc -> bool) (docs : list doc) (d : doc) :
  d ∈ docs -> p d = true -> exists docs', remove_first p docs = Some docs'.
Proof.
  induction docs as [|x docs IH]; intros Hin Hp.
  - apply elem_of_nil in Hin. contradiction.
  - cbn. destruct (p x) eqn:Hx; [eauto|].
    apply elem_of_cons in Hin as [-> | Hin]; [congruence|].
    destruct (IH Hin Hp) as [r ->]. eauto.
Qed.

Lemma existsb_has_id_false (v : value) (docs : list doc) (d : doc) :
  existsb (has_id v) docs = false -> d ∈ docs -> d !! "_id" <> Some v.
Proof.
  intros He Hin Hid. rewrite (existsb_has_id v docs d Hin Hid) in He.
  discriminate.
Qed.

Lemma existsb_has_id_sub (v : value) (docs docs' : list doc) :
  (forall d, d ∈ docs' -> d ∈ docs) ->
  existsb (has_id v) docs = false -> existsb (has_id v) docs' = false.
Proof.
  intros Hsub He. destruct (existsb (has_id v) docs') eqn:E; [|reflexivity].
  apply existsb_exists in E as (d & Hin & Hid).
  apply list_elem_of_In in Hin. apply has_id_inv in Hid.
  exfalso. exact (existsb_has_id_false v docs d He (Hsub d Hin) Hid).
Qed.

Lemma remove_first_unique_index (p : doc -> bool) (docs docs' : list doc) :
  unique_index docs = true -> remove_first p docs = Some docs' ->
  unique_index docs' = true.
Proof.
  revert docs'. induction docs as [|x docs IH]; intros docs' Hu H.
  - discriminate H.
  - destruct (unique_index_cons _ _ Hu) as (v & Hv & Ha & He & Hu').
    cbn in H. destruct (p x).
    + injection H as <-. exact Hu'.
    + destruct (remove_first p docs) as [r|] eqn:Hr; [|discriminate H].
      injection H as <-. cbn. rewrite Hv, Ha, (IH r Hu' eq_refl).
      rewrite (existsb_has_id_sub v docs r (remove_first_elem p docs r Hr) He).
      reflexivity.
Qed.

(** After [deleteOne({ _id: o, ... })] removed a document, the identifier
    names nothing. *)
Lemma remove_first_absent (o : ObjectId) (q : query) (docs docs' : list doc) :
  unique_index docs = true ->
  remove_first (matches (("_id", VOid o) :: q)) docs = Some docs' ->
  absent o docs'.
Proof.
  revert docs'. induction docs as [|x docs IH]; intros docs' Hu H.
  - discriminate H.
  - destruct (unique_index_cons _ _ Hu) as (v & Hv & Ha & He & Hu').
    cbn [remove_first] in H.
    destruct (matches (("_id", VOid o) :: q) x) eqn:Hx.
    + injection H as <-.
      destruct (matches_id_inv _ _ _ _ Hv Ha Hx) as [-> _].
      intros d Hd. exact (existsb_has_id_false _ _ d He Hd).
    + destruct (remove_first _ docs) as [r|] eqn:Hr; [|discriminate H].
      injection H as <-. intros d Hd Hid.
      apply elem_of_cons in Hd as [-> | Hd].
      * destruct (remove_first_hit _ _ _ Hr) as (m & Hm & Hpm).
        destruct (unique_index_elem _ _ Hu' Hm) as (vm & Hvm & Ham).
        destruct (matches_id_inv _ _ _ _ Hvm Ham Hpm) as [-> _].
        assert (v = VOid o) by congruence. subst v.
        exact (existsb_has_id_false _ _ m He Hm Hvm).
      * exact (IH r Hu' eq_refl d Hd Hid).
Qed.

Lemma scoped_query_owner (who : string) (o : ObjectId) (d : doc) :
  d !! "_id" = Some (VOid o) -> d !! "userId" = Some (VStr who) ->
  matches [("_id", VOid o); ("userId", VStr who)] d = true.
Proof.
  intros Hid Hown. unfold matches. cbn [forallb fst snd].
  rewrite Hid, Hown. cbn [field_match value_eqb].
  rewrite (proj2 (oid_eqb_eq o o) eq_refl), String.eqb_refl. reflexivity.
Qed.

Section Delete.

Variable createPk : nat -> ObjectId.
Variable verifyIdToken : string -> option DecodedIdToken.

Let app := Secured.app createPk verifyIdToken.

(** The delete route, run on a reachable store. *)
Lemma delete_run (c : coll) (id : string) (o : ObjectId)
    (req : request) (user : DecodedIdToken) (w : world) :
  authenticates verifyIdToken req user ->
  target req = delete_route c id ->
  parseObjectId id = Some o ->
  reachable w = true ->
  let q := [("_id", VOid o); ("userId", VStr (uid user))] in
  let w1 := snd (record (CallDeleteOne c q) w) in
  app req w
  = match remove_first (matches q) (collection c w) with
    | None => (not_found c, w1)
    | Some docs' =>
        (mkResponse 200 (Message (noun c ++ " deleted")),
         snd (write c docs' w1))
    end.
Proof.
  intros Hauth Hroute Hparse Hup.
  unfold app, Secured.app, serve, Secured.handler. rewrite Hroute.
  destruct c; cbn [delete_route];
    rewrite (authenticate_next _ _ user) by exact Hauth;
    unfold Secured.delete_notes_id, Secured.delete_folders_id,
      try_catch, mbind, M_bind, newObjectId;
    rewrite Hparse; cbv beta iota delta [mret M_ret];
    rewrite deleteOne_run, Hup; cbv zeta;
    match goal with
    | |- context [remove_first ?p ?l] => destruct (remove_first p l)
    end; reflexivity.
Qed.

End Delete.

(** C8, as stated, fails: a note created with an [_id] of the client's
    choosing exists and belongs to the requester, but the delete route
    looks for an ObjectId.  With [_id] "mine" the delete is answered 500,
    and 500 again; with an [_id] that is a string of twenty-four hex digits
    it is answered 404 at once.  The note stays in both cases. *)
Lemma delete_twice_counterexample :
  let taken := "0123456789abcdef01234567" in
  let create1 := Sample.as_u1 POST_notes
                   (<["_id" := VStr "mine"]> {["title" := VStr "A"]}) in
  let create2 := Sample.as_u1 POST_notes
                   (<["_id" := VStr taken]> {["title" := VStr "A"]}) in
  let w1 := snd (Sample.app create1 (Sample.empty true)) in
  let w2 := snd (Sample.app create2 (Sample.empty true)) in
  let del1 := Sample.as_u1 (DELETE_notes_id "mine") ∅ in
  let del2 := Sample.as_u1 (DELETE_notes_id taken) ∅ in
  notesCollection w1 = [<["userId" := VStr "u1"]> (body create1)]
  /\ fst (Sample.app del1 w1)
     = mkResponse 500 (Message "Failed to delete note")
  /\ fst (Sample.app del1 (snd (Sample.app del1 w1)))
     = mkResponse 500 (Message "Failed to delete note")
  /\ notesCollection (snd (Sample.app del1 w1)) = notesCollection w1
  /\ notesCollection w2 = [<["userId" := VStr "u1"]> (body create2)]
  /\ fst (Sample.app del2 w2) = mkResponse 404 (Message "Note not found")
  /\ notesCollection (snd (Sample.app del2 w2)) = notesCollection w2.
Proof. repeat split; vm_compute; reflexivity. Qed.

(** C8, amended. Deleting a document the requester owns, whose identifier
    is an ObjectId and which is addressed by the hex string of that
    identifier, succeeds and removes it; the same request issued again is
    answered 404. *)
Theorem delete_twice
    (createPk : nat -> ObjectId)
    (verifyIdToken : string -> option DecodedIdToken)
    (c : coll) (id : string) (o : ObjectId)
    (req : request) (user : DecodedIdToken) (w : world) :
  authenticates verifyIdToken req user ->
  target req = delete_route c id ->
  parseObjectId id = Some o ->
  reachable w = true ->
  unique_index (collection c w) = true ->
  (exists d, d ∈ collection c w /\ d !! "_id" = Some (VOid o)
             /\ d !! "userId" = Some (VStr (uid user))) ->
  let first := Secured.app createPk verifyIdToken req w in
  let second := Secured.app createPk verifyIdToken req (snd first) in
  fst first = mkResponse 200 (Message (noun c ++ " deleted"))
  /\ absent o (collection c (snd first))
  /\ fst second = not_found c.
Proof.
  intros Hauth Hroute Hparse Hup Hu (d & Hin & Hid & Hown) first second.
  subst first second.
  destruct (remove_first_some _ _ d Hin (scoped_query_owner _ _ _ Hid Hown))
    as [docs' Hrm].
  pose proof (delete_run createPk verifyIdToken c id o req user w
                Hauth Hroute Hparse Hup) as Hfirst.
  cbv zeta in Hfirst. rewrite Hrm in Hfirst. rewrite Hfirst.
  cbn [fst snd].
  set (w1 := snd (write c docs' _)).
  assert (Hc1 : collection c w1 = docs') by apply collection_write.
  assert (Hup1 : reachable w1 = true)
    by (subst w1; destruct c; exact Hup).
  pose proof (remove_first_absent _ _ _ _ Hu Hrm) as Habs.
  pose proof (remove_first_unique_index _ _ _ Hu Hrm) as Hu1.
  split; [reflexivity|]. split; [rewrite Hc1; exact Habs|].
  pose proof (delete_run createPk verifyIdToken c id o req user w1
                Hauth Hroute Hparse Hup1) as Hsecond.
  cbv zeta in Hsecond. rewrite Hc1 in Hsecond.
  rewrite (remove_first_none_all _ _
             (scoped_query_absent o _ docs' Hu1 Habs)) in Hsecond.
  rewrite Hsecond. reflexivity.
Qed.

Lemma delete_twice_witness :
  let first := Sample.app (Sample.as_u1 (DELETE_notes_id Sample.n1) ∅)
                          (Sample.one_each true) in
  let second := Sample.app (Sample.as_u1 (DELETE_notes_id Sample.n1) ∅)
                           (snd first) in
  fst first = mkResponse 200 (Message "Note deleted")
  /\ absent (Sample.pk 0) (collection Notes (snd first))
  /\ fst second = not_found Notes.
Proof.
  apply (delete_twice Sample.pk Sample.verify Notes Sample.n1 (Sample.pk 0)
           (Sample.as_u1 (DELETE_notes_id Sample.n1) ∅) Sample.u1
           (Sample.one_each true)).
  - exists "Bearer tok-u1", "tok-u1".
    split; [|split; [|split]]; reflexivity.
  - reflexivity.
  - apply parse_toHexString.
  - reflexivity.
  - vm_compute. reflexivity.
  - exists Sample.note_A. split; [|split].
    + apply elem_of_cons. left. reflexivity.
    + vm_compute. reflexivity.
    + vm_compute. reflexivity.
Defined.

(** ** Creating, then reading *)

Lemma leaves_id_stamped (who : string) (b : doc) :
  leaves_id_to_driver (<["userId" := VStr who]> b) = leaves_id_to_driver b.
Proof.
  unfold leaves_id_to_driver. rewrite lookup_insert_ne by discriminate.
  reflexivity.
Qed.

Lemma find_app_last (p : doc -> bool) (docs : list doc) (x : doc) :
  (forall d, d ∈ docs -> p d = false) -> p x = true ->
  List.find p (docs ++ [x]) = Some x.
Proof.
  induction docs as [|y docs IH]; intros Hnone Hx; cbn.
  - rewrite Hx. reflexivity.
  - rewrite (Hnone y) by (apply elem_of_cons; auto).
    apply IH; [|exact Hx]. intros d Hd. apply Hnone, elem_of_cons. auto.
Qed.

Section Create.

Variable createPk : nat -> ObjectId.
Variable verifyIdToken : string -> option DecodedIdToken.

Let app := Secured.app createPk verifyIdToken.

(** The create route, run: [sent] is the document handed to the
    driver after the driver settled its [_id]. *)
Lemma create_run (c : coll) (req : request) (user : DecodedIdToken)
    (w : world) :
  authenticates verifyIdToken req user ->
  target req = create_route c ->
  let stamped := <["userId" := VStr (uid user)]> (body req) in
  let gen := leaves_id_to_driver (body req) in
  let sent := if gen then <["_id" := VOid (createPk (pkIssued w))]> stamped
              else stamped in
  let id := default VNull (sent !! "_id") in
  let w1 := snd (record (CallInsertOne c sent)
                        (if gen then snd (nextPk createPk w) else w)) in
  app req w
  = if reachable w && negb (is_array id)
       && negb (existsb (has_id id) (collection c w))
    then (mkResponse 201 (JsonInsertOneResult (mkInsertOneResult true id)),
          snd (write c (collection c w ++ [sent]) w1))
    else (create_failed c, snd (console_error (create_label c) w1)).
Proof.
  intros Hauth Hroute.
  unfold app, Secured.app, serve, Secured.handler. rewrite Hroute.
  destruct c; cbn [create_route];
    rewrite (authenticate_next _ _ user) by exact Hauth;
    unfold Secured.post_notes, Secured.post_folders, try_catch,
      mbind, M_bind;
    rewrite insertOne_run, leaves_id_stamped; cbv zeta;
    (destruct (reachable w); cbn [andb]; [|reflexivity]);
    match goal with
    | |- context [is_array ?v] => destruct (is_array v)
    end; cbn [negb andb]; try reflexivity;
    match goal with
    | |- context [existsb ?p ?l] => destruct (existsb p l)
    end; reflexivity.
Qed.

(** The by-id read, run on a reachable store. *)
Lemma get_run (c : coll) (id : string) (o : ObjectId)
    (req : request) (user : DecodedIdToken) (w : world) :
  authenticates verifyIdToken req user ->
  target req = get_route c id ->
  parseObjectId id = Some o ->
  reachable w = true ->
  let q := [("_id", VOid o); ("userId", VStr (uid user))] in
  app req w
  = (match List.find (matches q) (collection c w) with
     | None => not_found c
     | Some d => mkResponse 200 (JsonDoc d)
     end,
     snd (record (CallFindOne c q) w)).
Proof.
  intros Hauth Hroute Hparse Hup.
  unfold app, Secured.app, serve, Secured.handler. rewrite Hroute.
  destruct c; cbn [get_route];
    rewrite (authenticate_next _ _ user) by exact Hauth;
    unfold Secured.get_notes_id, Secured.get_folders_id,
      try_catch, mbind, M_bind, newObjectId;
    rewrite Hparse; cbv beta iota delta [mret M_ret];
    rewrite findOne_run, Hup; cbv zeta;
    match goal with
    | |- context [List.find ?p ?l] => destruct (List.find p l)
    end; reflexivity.
Qed.

End Create.

(** C2. On an authenticated create the document handed to the store has
    the verified subject identifier in its owner field [userId], whatever
    the request body holds, and its other fields, [_id] apart, are the
    body's.  When the store is up and the document's [_id] is neither an
    array nor taken, the create is answered 201 and that document is
    stored at the end of the collection; otherwise the answer is the
    route's 500 and nothing is stored. *)
Theorem create_stamps_owner
    (createPk : nat -> ObjectId)
    (verifyIdToken : string -> option DecodedIdToken)
    (c : coll) (req : request) (user : DecodedIdToken) (w : world) :
  authenticates verifyIdToken req user ->
  target req = create_route c ->
  let res := fst (Secured.app createPk verifyIdToken req w) in
  let w' := snd (Secured.app createPk verifyIdToken req w) in
  let stamped := <["userId" := VStr (uid user)]> (body req) in
  let sent := if leaves_id_to_driver (body req)
              then <["_id" := VOid (createPk (pkIssued w))]> stamped
              else stamped in
  let id := default VNull (sent !! "_id") in
  sent !! "userId" = Some (VStr (uid user))
  /\ (forall k, k <> "userId" -> k <> "_id" -> sent !! k = body req !! k)
  /\ calls w' = calls w ++ [CallInsertOne c sent]
  /\ (if reachable w && negb (is_array id)
         && negb (existsb (has_id id) (collection c w))
      then res = mkResponse 201
                   (JsonInsertOneResult (mkInsertOneResult true id))
           /\ collection c w' = collection c w ++ [sent]
      else res = create_failed c
           /\ collection c w' = collection c w).
Proof.
  intros Hauth Hroute res w' stamped sent id. subst res w' id sent stamped.
  pose proof (create_run createPk verifyIdToken c req user w Hauth Hroute)
    as Hrun.
  cbv zeta in Hrun. rewrite Hrun. clear Hrun.
  split; [|split; [|split]].
  - destruct (leaves_id_to_driver (body req)).
    + rewrite lookup_insert_ne by discriminate. apply lookup_insert_eq.
    + apply lookup_insert_eq.
  - intros k Hk Hk'. destruct (leaves_id_to_driver (body req)).
    + rewrite !lookup_insert_ne by congruence. reflexivity.
    + rewrite lookup_insert_ne by congruence. reflexivity.
  - destruct (_ && _); destruct (leaves_id_to_driver (body req));
      destruct c; reflexivity.
  - destruct (_ && _); cbn [fst snd].
    + split; [reflexivity | apply collection_write].
    + split; [reflexivity|]. rewrite collection_console, collection_record.
      destruct (leaves_id_to_driver (body req)), c; reflexivity.
Qed.

Lemma create_stamps_owner_witness :
  let req := Sample.as_u1 POST_notes
               (<["userId" := VStr "u2"]> {["title" := VStr "A"]}) in
  let res := fst (Sample.app req (Sample.empty true)) in
  let w' := snd (Sample.app req (Sample.empty true)) in
  let sent := <["_id" := VOid (Sample.pk 0)]>
                (<["userId" := VStr "u1"]> (body req)) in
  body req !! "userId" = Some (VStr "u2")
  /\ sent !! "userId" = Some (VStr "u1")
  /\ res = mkResponse 201
             (JsonInsertOneResult (mkInsertOneResult true (VOid (Sample.pk 0))))
  /\ collection Notes w' = [sent]
  /\ calls w' = [CallInsertOne Notes sent].
Proof.
  intros req res w' sent.
  pose proof (create_stamps_owner Sample.pk Sample.verify Notes req
                Sample.u1 (Sample.empty true)
                (ex_intro _ "Bearer tok-u1"
                   (ex_intro _ "tok-u1"
                      (conj eq_refl (conj eq_refl (conj eq_refl eq_refl)))))
                eq_refl) as H.
  cbv zeta in H. destruct H as (Hown & _ & Hcalls & Hres).
  match type of Hres with
  | (if ?b then _ else _) =>
      assert (Hb : b = true) by (vm_compute; reflexivity);
      rewrite Hb in Hres
  end.
  destruct Hres as [Hres Hcoll].
  split; [vm_compute; reflexivity|].
  split; [exact Hown|]. split; [exact Hres|].
  split; [exact Hcoll | exact Hcalls].
Defined.

(** C7, as stated, fails: a body that carries an [_id] decides the
    identifier of the created note.  Two creates on the same store that
    differ in the body's [_id] only are acknowledged with those two values,
    neither of which is an ObjectId of the driver. *)
Lemma client_chosen_id_counterexample :
  let mine := Sample.as_u1 POST_notes {["_id" := VStr "mine"]} in
  let yours := Sample.as_u1 POST_notes {["_id" := VStr "yours"]} in
  fst (Sample.app mine (Sample.empty true))
  = mkResponse 201 (JsonInsertOneResult (mkInsertOneResult true (VStr "mine")))
  /\ fst (Sample.app yours (Sample.empty true))
     = mkResponse 201
         (JsonInsertOneResult (mkInsertOneResult true (VStr "yours")))
  /\ ~ (forall b : doc,
          content (fst (Sample.app (Sample.as_u1 POST_notes b)
                                   (Sample.empty true)))
          = JsonInsertOneResult
              (mkInsertOneResult true (VOid (Sample.pk 0)))).
Proof.
  split; [vm_compute; reflexivity|].
  split; [vm_compute; reflexivity|].
  intros H. specialize (H {["_id" := VStr "mine"]}).
  vm_compute in H. discriminate H.
Qed.

(** C7, amended. A create that succeeds on a body without an [_id] (or
    with a null one) is acknowledged with the identifier the driver's key
    factory issued, which does not depend on the body; the stored document
    carries it, and it survives the trip through its hex string. *)
Theorem driver_chooses_id
    (createPk : nat -> ObjectId)
    (verifyIdToken : string -> option DecodedIdToken)
    (c : coll) (req : request) (user : DecodedIdToken) (w : world) :
  authenticates verifyIdToken req user ->
  target req = create_route c ->
  leaves_id_to_driver (body req) = true ->
  status (fst (Secured.app createPk verifyIdToken req w)) = 201 ->
  let res := fst (Secured.app createPk verifyIdToken req w) in
  let w' := snd (Secured.app createPk verifyIdToken req w) in
  let o := createPk (pkIssued w) in
  content res = JsonInsertOneResult (mkInsertOneResult true (VOid o))
  /\ (exists d, collection c w' = collection c w ++ [d]
                /\ d !! "_id" = Some (VOid o))
  /\ toJSON (VOid o) = VStr (toHexString o)
  /\ parseObjectId (toHexString o) = Some o.
Proof.
  intros Hauth Hroute Hgen H201 res w' o. subst res w' o. revert H201.
  pose proof (create_run createPk verifyIdToken c req user w Hauth Hroute)
    as Hrun.
  cbv zeta in Hrun. rewrite Hrun. clear Hrun.
  destruct (_ && _); cbn [fst snd]; [intros _ | destruct c; discriminate].
  rewrite Hgen. rewrite lookup_insert_eq. cbn [default].
  split; [reflexivity|]. split; [|split].
  - eexists. split; [apply collection_write | apply lookup_insert_eq].
  - reflexivity.
  - apply parse_toHexString.
Qed.

Lemma driver_chooses_id_witness :
  let req := Sample.as_u1 POST_notes {["title" := VStr "A"]} in
  let res := fst (Sample.app req (Sample.empty true)) in
  let w' := snd (Sample.app req (Sample.empty true)) in
  let o := Sample.pk 0 in
  content res = JsonInsertOneResult (mkInsertOneResult true (VOid o))
  /\ (exists d, collection Notes w'
                = collection Notes (Sample.empty true) ++ [d]
                /\ d !! "_id" = Some (VOid o))
  /\ toJSON (VOid o) = VStr (toHexString o)
  /\ parseObjectId (toHexString o) = Some o.
Proof.
  apply (driver_chooses_id Sample.pk Sample.verify Notes
           (Sample.as_u1 POST_notes {["title" := VStr "A"]})
           Sample.u1 (Sample.empty true)).
  - exists "Bearer tok-u1", "tok-u1".
    split; [|split; [|split]]; reflexivity.
  - reflexivity.
  - vm_compute. reflexivity.
  - vm_compute. reflexivity.
Defined.

(** X15. A create that succeeds on a body with an [_id] of its own (not
    null) is acknowledged with that value as the identifier. *)
Lemma client_id_kept
    (createPk : nat -> ObjectId)
    (verifyIdToken : string -> option DecodedIdToken)
    (c : coll) (req : request) (user : DecodedIdToken) (w : world)
    (v : value) :
  authenticates verifyIdToken req user ->
  target req = create_route c ->
  body req !! "_id" = Some v -> v <> VNull ->
  status (fst (Secured.app createPk verifyIdToken req w)) = 201 ->
  content (fst (Secured.app createPk verifyIdToken req w))
  = JsonInsertOneResult (mkInsertOneResult true v).
Proof.
  intros Hauth Hroute Hv Hnn.
  pose proof (create_run createPk verifyIdToken c req user w Hauth Hroute)
    as Hrun.
  cbv zeta in Hrun. rewrite Hrun. clear Hrun.
  assert (Hgen : leaves_id_to_driver (body req) = false).
  { unfold leaves_id_to_driver. rewrite Hv. destruct v; congruence. }
  rewrite Hgen. rewrite lookup_insert_ne by discriminate. rewrite Hv.
  destruct (_ && _); cbn [fst snd]; [reflexivity | destruct c; discriminate].
Qed.

(** C9, as stated, fails: a create whose body carries an [_id] returns
    that value as the identifier, and the read by that identifier does not
    succeed -- 400 when it is no ObjectId string, 404 when it is one. *)
Lemma create_then_get_counterexample :
  let taken := "0123456789abcdef01234567" in
  let create1 := Sample.as_u1 POST_notes
                   (<["_id" := VStr "mine"]> {["title" := VStr "A"]}) in
  let create2 := Sample.as_u1 POST_notes
                   (<["_id" := VStr taken]> {["title" := VStr "A"]}) in
  let w1 := snd (Sample.app create1 (Sample.empty true)) in
  let w2 := snd (Sample.app create2 (Sample.empty true)) in
  fst (Sample.app create1 (Sample.empty true))
  = mkResponse 201 (JsonInsertOneResult (mkInsertOneResult true (VStr "mine")))
  /\ fst (Sample.app (Sample.as_u1 (GET_notes_id "mine") ∅) w1)
     = mkResponse 400 (Message "Invalid note ID")
  /\ fst (Sample.app create2 (Sample.empty true))
     = mkResponse 201
         (JsonInsertOneResult (mkInsertOneResult true (VStr taken)))
  /\ fst (Sample.app (Sample.as_u1 (GET_notes_id taken) ∅) w2)
     = mkResponse 404 (Message "Note not found").
Proof. repeat split; vm_compute; reflexivity. Qed.

(** C9, amended. A create that succeeds on a body without an [_id] (or
    with a null one), followed at once by a read by the identifier it
    returned, by the same owner: the read answers 200 with the body's
    fields, the owner field set to the verified subject, and [_id] set to
    the identifier. *)
Theorem create_then_get
    (createPk : nat -> ObjectId)
    (verifyIdToken : string -> option DecodedIdToken)
    (c : coll) (req : request) (user : DecodedIdToken) (w : world) :
  authenticates verifyIdToken req user ->
  target req = create_route c ->
  leaves_id_to_driver (body req) = true ->
  unique_index (collection c w) = true ->
  status (fst (Secured.app createPk verifyIdToken req w)) = 201 ->
  let o := createPk (pkIssued w) in
  let stored := <["_id" := VOid o]>
                  (<["userId" := VStr (uid user)]> (body req)) in
  fst (Secured.app createPk verifyIdToken req w)
  = mkResponse 201 (JsonInsertOneResult (mkInsertOneResult true (VOid o)))
  /\ forall req',
       authenticates verifyIdToken req' user ->
       target req' = get_route c (toHexString o) ->
       fst (Secured.app createPk verifyIdToken req'
              (snd (Secured.app createPk verifyIdToken req w)))
       = mkResponse 200 (JsonDoc stored).
Proof.
  intros Hauth Hroute Hgen Hu H201 o stored. subst o stored. revert H201.
  pose proof (create_run createPk verifyIdToken c req user w Hauth Hroute)
    as Hrun.
  cbv zeta in Hrun. rewrite Hrun. clear Hrun.
  rewrite Hgen. rewrite lookup_insert_eq. cbn [default is_array negb].
  rewrite andb_true_r.
  destruct (reachable w) eqn:Hup; cbn [andb];
    [|destruct c; discriminate].
  destruct (existsb _ (collection c w)) eqn:Hdup; cbn [negb fst snd];
    [destruct c; discriminate|].
  intros _. split; [reflexivity|].
  intros req' Hauth' Hroute'.
  set (sent := <["_id" := _]> _).
  set (w1 := snd (write c _ _)).
  assert (Hc1 : collection c w1 = collection c w ++ [sent])
    by apply collection_write.
  assert (Hup1 : reachable w1 = true)
    by (subst w1; destruct c; exact Hup).
  pose proof (get_run createPk verifyIdToken c _ _ req' user w1
                Hauth' Hroute' (parse_toHexString _) Hup1) as Hget.
  cbv zeta in Hget. rewrite Hget, Hc1. cbn [fst].
  rewrite find_app_last; [reflexivity| |].
  - apply scoped_query_absent; [exact Hu|].
    intros d Hd. exact (existsb_has_id_false _ _ d Hdup Hd).
  - apply scoped_query_owner; subst sent.
    + apply lookup_insert_eq.
    + rewrite lookup_insert_ne by discriminate. apply lookup_insert_eq.
Qed.

Lemma create_then_get_witness :
  let req := Sample.as_u1 POST_notes {["title" := VStr "A"]} in
  fst (Sample.app req (Sample.empty true))
  = mkResponse 201
      (JsonInsertOneResult (mkInsertOneResult true (VOid (Sample.pk 0))))
  /\ forall req',
       authenticates Sample.verify req' Sample.u1 ->
       target req' = get_route Notes Sample.n1 ->
       fst (Sample.app req' (snd (Sample.app req (Sample.empty true))))
       = mkResponse 200 (JsonDoc Sample.note_A).
Proof.
  assert (Hauth : authenticates Sample.verify
                    (Sample.as_u1 POST_notes {["title" := VStr "A"]})
                    Sample.u1).
  { exists "Bearer tok-u1", "tok-u1".
    split; [|split; [|split]]; reflexivity. }
  assert (H201 : status (fst (Secured.app Sample.pk Sample.verify
                   (Sample.as_u1 POST_notes {["title" := VStr "A"]})
                   (Sample.empty true))) = 201)
    by (vm_compute; reflexivity).
  exact (create_then_get Sample.pk Sample.verify Notes
           (Sample.as_u1 POST_notes {["title" := VStr "A"]})
           Sample.u1 (Sample.empty true)
           Hauth eq_refl eq_refl eq_refl H201).
Defined.

(** ** Where the handlers part from the specification *)

(** C3. The update route hands the request body to [$set] as it is, so a
    body with a [userId] field rewrites the owner field.  Here [u1] updates
    the note it created with [{ userId: "u2" }]: the update is
    acknowledged, the stored note now belongs to [u2], [u1] no longer finds
    it and [u2] reads it. *)
Theorem put_overwrites_owner :
  let put := Sample.as_u1 (PUT_notes_id Sample.n1)
               {["userId" := VStr "u2"]} in
  let w' := snd (Sample.app put (Sample.one_each true)) in
  Sample.note_A !! "userId" = Some (VStr "u1")
  /\ fst (Sample.app put (Sample.one_each true))
     = mkResponse 200 (Message "Note updated successfully")
  /\ notesCollection w' = [<["userId" := VStr "u2"]> Sample.note_A]
  /\ fst (Sample.app (Sample.as_u1 (GET_notes_id Sample.n1) ∅) w')
     = mkResponse 404 (Message "Note not found")
  /\ fst (Sample.app (Sample.as_u2 (GET_notes_id Sample.n1) ∅) w')
     = mkResponse 200 (JsonDoc (<["userId" := VStr "u2"]> Sample.note_A)).
Proof. repeat split; vm_compute; reflexivity. Qed.

(** C5. A path parameter that is no ObjectId string never reaches the
    store, but only the read routes answer it with 400: the update and
    delete routes answer 500, through the catch block they share with
    store failures. *)
Theorem malformed_id_answers :
  let w := Sample.one_each true in
  let put := Sample.as_u1 (PUT_notes_id "not-an-id") {["title" := VStr "B"]} in
  parseObjectId "not-an-id" = None
  /\ fst (Sample.app put w)
     = mkResponse 500 (Message "Failed to update note")
  /\ fst (Sample.app (Sample.as_u1 (DELETE_notes_id "not-an-id") ∅) w)
     = mkResponse 500 (Message "Failed to delete note")
  /\ fst (Sample.app (Sample.as_u1 (DELETE_folders_id "not-an-id") ∅) w)
     = mkResponse 500 (Message "Failed to delete folder")
  /\ fst (Sample.app (Sample.as_u1 (GET_notes_id "not-an-id") ∅) w)
     = mkResponse 400 (Message "Invalid note ID")
  /\ fst (Sample.app (Sample.as_u1 (GET_folders_id "not-an-id") ∅) w)
     = mkResponse 400 (Message "Invalid folder ID")
  /\ calls (snd (Sample.app put w)) = calls w.
Proof. repeat split; vm_compute; reflexivity. Qed.

(** C6. With the store down, the read of one note by a well-formed
    identifier is answered 400 "Invalid note ID", not 500: its catch block
    is the one meant for a malformed identifier.  The list, create, update
    and delete routes answer 500. *)
Theorem store_failure_on_get_by_id :
  let w := Sample.one_each false in
  parseObjectId Sample.n1 = Some (Sample.pk 0)
  /\ fst (Sample.app (Sample.as_u1 (GET_notes_id Sample.n1) ∅) w)
     = mkResponse 400 (Message "Invalid note ID")
  /\ fst (Sample.app (Sample.as_u1 (GET_folders_id Sample.n1) ∅) w)
     = mkResponse 400 (Message "Invalid folder ID")
  /\ fst (Sample.app (Sample.as_u1 GET_notes ∅) w)
     = mkResponse 500 (Message "Failed to fetch notes")
  /\ fst (Sample.app (Sample.as_u1 (DELETE_notes_id Sample.n1) ∅) w)
     = mkResponse 500 (Message "Failed to delete note").
Proof. repeat split; vm_compute; reflexivity. Qed.

Section Failures.

Variable createPk : nat -> ObjectId.
Variable verifyIdToken : string -> option DecodedIdToken.

Let app := Secured.app createPk verifyIdToken.

(** X16. With the store down every protected route answers with a fixed
    message; the status is 500 except on the two by-id reads. *)
Lemma store_down_status (req : request) (user : DecodedIdToken)
    (w : world) :
  authenticates verifyIdToken req user ->
  protected (target req) = true ->
  reachable w = false ->
  status (fst (app req w))
  = match target req with
    | GET_notes_id _ | GET_folders_id _ => 400
    | _ => 500
    end
  /\ exists m, content (fst (app req w)) = Message m.
Proof.
  intros Hauth Hprot Hdown.
  unfold app, Secured.app, serve, Secured.handler.
  destruct (target req) as [ | | |id|id|id| | |id|id];
    try discriminate Hprot;
    rewrite (authenticate_next _ _ user) by exact Hauth;
    unfold Secured.post_notes, Secured.get_notes, Secured.get_notes_id,
      Secured.put_notes_id, Secured.delete_notes_id, Secured.post_folders,
      Secured.get_folders, Secured.get_folders_id,
      Secured.delete_folders_id, try_catch, mbind, M_bind, newObjectId;
    try (destruct (parseObjectId id));
    cbv beta iota delta [mret M_ret throw];
    rewrite ?insertOne_run, ?find_run, ?findOne_run, ?updateOne_run,
      ?deleteOne_run, ?Hdown;
    cbv zeta; rewrite ?Hdown; cbn; eauto.
Qed.

(** X17. A malformed identifier: no store call, 400 on the reads and 500
    on update and delete. *)
Lemma malformed_id_status (c : coll) (id : string) (req : request)
    (user : DecodedIdToken) (w : world) :
  authenticates verifyIdToken req user ->
  target req ∈ by_id_routes c id ->
  parseObjectId id = None ->
  status (fst (app req w))
  = match target req with
    | GET_notes_id _ | GET_folders_id _ => 400
    | _ => 500
    end
  /\ calls (snd (app req w)) = calls w
  /\ forall c', collection c' (snd (app req w)) = collection c' w.
Proof.
  intros Hauth Hroute Hparse.
  destruct c; cbn in Hroute;
    repeat (apply elem_of_cons in Hroute as [Hroute | Hroute]);
    try (apply elem_of_nil in Hroute; contradiction).
  all: unfold app, Secured.app, serve, Secured.handler; rewrite Hroute;
    rewrite (authenticate_next _ _ user) by exact Hauth;
    unfold Secured.get_notes_id, Secured.put_notes_id,
      Secured.delete_notes_id, Secured.get_folders_id,
      Secured.delete_folders_id, try_catch, mbind, M_bind, newObjectId;
    rewrite Hparse; cbn;
    (split; [reflexivity
            | split; [reflexivity | intros []; reflexivity]]).
Qed.

End Failures.

(** ** [src/index.js]: reads without a scope *)

Lemma filter_matches_nil (docs : list doc) :
  List.filter (matches []) docs = docs.
Proof.
  induction docs as [|x docs IH]; [reflexivity|].
  cbn. rewrite IH. reflexivity.
Qed.

Lemma matches_id (o : ObjectId) (d : doc) :
  d !! "_id" = Some (VOid o) -> matches [("_id", VOid o)] d = true.
Proof.
  intros Hid. unfold matches. cbn [forallb fst snd]. rewrite Hid.
  cbn [field_match value_eqb].
  rewrite (proj2 (oid_eqb_eq o o) eq_refl). reflexivity.
Qed.

Lemma find_by_id (o : ObjectId) (docs : list doc) (d : doc) :
  unique_index docs = true -> d ∈ docs -> d !! "_id" = Some (VOid o) ->
  List.find (matches [("_id", VOid o)]) docs = Some d.
Proof.
  induction docs as [|x docs IH]; intros Hu Hin Hid.
  - apply elem_of_nil in Hin. contradiction.
  - cbn [List.find].
    destruct (matches [("_id", VOid o)] x) eqn:Hx.
    + destruct (unique_index_cons _ _ Hu) as (v & Hv & Ha & _ & _).
      destruct (matches_id_inv _ _ _ _ Hv Ha Hx) as [-> _].
      f_equal. apply (unique_index_inj (x :: docs)); try assumption.
      * apply elem_of_cons. auto.
      * congruence.
    + apply elem_of_cons in Hin as [-> | Hin].
      * rewrite (matches_id _ _ Hid) in Hx. discriminate.
      * destruct (unique_index_cons _ _ Hu) as (_ & _ & _ & _ & Hu').
        exact (IH Hu' Hin Hid).
Qed.

(** C10. In [src/index.js] the three read routes sit behind no middleware
    and query without an owner condition: the answer does not depend on the
    authorization header, [GET /notes] and [GET /folders] return the whole
    collection, and [GET /notes/:id] returns the note the identifier names,
    whatever its owner field. *)
Theorem index_reads_unscoped (req : request) (w : world) :
  reachable w = true ->
  (forall h, Index.app (mkRequest (target req) h (body req)) w
             = Index.app req w)
  /\ (target req = GET_notes ->
      fst (Index.app req w) = mkResponse 200 (JsonDocs (notesCollection w)))
  /\ (target req = GET_folders ->
      fst (Index.app req w) = mkResponse 200 (JsonDocs (folderCollection w)))
  /\ (forall id o d,
        target req = GET_notes_id id ->
        parseObjectId id = Some o ->
        unique_index (notesCollection w) = true ->
        d ∈ notesCollection w ->
        d !! "_id" = Some (VOid o) ->
        fst (Index.app req w) = mkResponse 200 (JsonDoc d)).
Proof.
  intros Hup. split; [|split; [|split]].
  - intros h. unfold Index.app, Index.handler. cbn [target].
    destruct (target req); reflexivity.
  - intros Hr. unfold Index.app, serve, Index.handler. rewrite Hr.
    unfold Index.get_notes, try_catch, mbind, M_bind.
    rewrite find_run, Hup. cbn. rewrite filter_matches_nil. reflexivity.
  - intros Hr. unfold Index.app, serve, Index.handler. rewrite Hr.
    unfold Index.get_folders, try_catch, mbind, M_bind.
    rewrite find_run, Hup. cbn. rewrite filter_matches_nil. reflexivity.
  - intros id o d Hr Hparse Hu Hin Hid.
    unfold Index.app, serve, Index.handler. rewrite Hr.
    unfold Index.get_notes_id, try_catch, mbind, M_bind, newObjectId.
    rewrite Hparse. cbv beta iota delta [mret M_ret].
    rewrite findOne_run, Hup. cbn [collection].
    rewrite (find_by_id o _ d Hu Hin Hid). reflexivity.
Qed.

Lemma index_reads_unscoped_witness :
  fst (Index.app (mkRequest GET_notes None ∅) (Sample.one_each true))
  = mkResponse 200 (JsonDocs [Sample.note_A])
  /\ fst (Index.app (mkRequest (GET_notes_id Sample.n1) None ∅)
                    (Sample.one_each true))
     = mkResponse 200 (JsonDoc Sample.note_A)
  /\ Sample.note_A !! "userId" = Some (VStr "u1").
Proof.
  split; [|split].
  - destruct (index_reads_unscoped (mkRequest GET_notes None ∅)
                (Sample.one_each true) eq_refl) as (_ & Hnotes & _ & _).
    exact (Hnotes eq_refl).
  - destruct (index_reads_unscoped
                (mkRequest (GET_notes_id Sample.n1) None ∅)
                (Sample.one_each true) eq_refl) as (_ & _ & _ & Hnote).
    apply (Hnote Sample.n1 (Sample.pk 0)).
    + reflexivity.
    + apply parse_toHexString.
    + vm_compute. reflexivity.
    + apply elem_of_cons. left. reflexivity.
    + vm_compute. reflexivity.
  - vm_compute. reflexivity.
Defined.


(** ** The unique index is an invariant of the application *)

Lemma store_wf_collections (w : world) :
  store_wf w = true <-> forall c, unique_index (collection c w) = true.
Proof.
  unfold store_wf. rewrite andb_true_iff. split.
  - intros [Hn Hf] []; assumption.
  - intros H. split; [exact (H Notes) | exact (H Folders)].
Qed.

Lemma store_wf_write (c : coll) (l : list doc) (w : world) :
  store_wf w = true -> unique_index l = true ->
  store_wf (snd (write c l w)) = true.
Proof.
  unfold store_wf. rewrite !andb_true_iff. intros [Hn Hf] Hl.
  destruct c; cbn; auto.
Qed.

Lemma insert_unique_index (docs : list doc) (d : doc) (v : value) :
  unique_index docs = true -> d !! "_id" = Some v -> is_array v = false ->
  existsb (has_id v) docs = false ->
  unique_index (docs ++ [d]) = true.
Proof.
  intros Hu Hv Ha. induction docs as [|x docs IH]; intros He.
  - cbn. rewrite Hv, Ha. reflexivity.
  - destruct (unique_index_cons _ _ Hu) as (u & Hx & Hax & Hex & Hu').
    cbn [existsb] in He. apply orb_false_elim in He as [Hxv He].
    cbn [app unique_index]. rewrite Hx, Hax, (IH Hu' He).
    rewrite existsb_app, Hex. cbn [existsb negb andb orb].
    unfold has_id in Hxv |- *. rewrite Hx in Hxv. rewrite Hv.
    rewrite value_eqb_sym, Hxv. reflexivity.
Qed.

Lemma replace_first_has_id (p : doc -> bool) (v : value)
    (docs : list doc) (d d' : doc) :
  List.find p docs = Some d -> d' !! "_id" = d !! "_id" ->
  existsb (has_id v) (replace_first p d' docs) = existsb (has_id v) docs.
Proof.
  intros Hfind Hid. induction docs as [|x docs IH]; [discriminate Hfind|].
  cbn in Hfind |- *. destruct (p x).
  - injection Hfind as ->. cbn. unfold has_id. rewrite Hid. reflexivity.
  - cbn. rewrite (IH Hfind). reflexivity.
Qed.

Lemma replace_first_unique_index (p : doc -> bool) (docs : list doc)
    (d d' : doc) :
  unique_index docs = true -> List.find p docs = Some d ->
  d' !! "_id" = d !! "_id" ->
  unique_index (replace_first p d' docs) = true.
Proof.
  intros Hu Hfind Hid. induction docs as [|x docs IH]; [discriminate Hfind|].
  destruct (unique_index_cons _ _ Hu) as (v & Hv & Ha & He & Hu').
  cbn in Hfind |- *. destruct (p x).
  - injection Hfind as ->. cbn. rewrite Hid, Hv, Ha, He, Hu'. reflexivity.
  - cbn. rewrite Hv, Ha, (IH Hu' Hfind).
    rewrite (replace_first_has_id p v docs d d' Hfind Hid), He. reflexivity.
Qed.

Lemma set_keeps_id (set d : doc) :
  changes_id set d = false -> (set ∪ d) !! "_id" = d !! "_id".
Proof.
  unfold changes_id. destruct (set !! "_id") as [v|] eqn:Hs.
  - rewrite negb_false_iff. intros H. apply has_id_inv in H.
    rewrite H. apply lookup_union_Some_l. exact Hs.
  - intros _. apply lookup_union_r. exact Hs.
Qed.

Lemma preserves_ret {A : Type} (a : A) : preserves (mret a).
Proof. intros w H. exact H. Qed.

Lemma preserves_throw {A : Type} (e : exn) : preserves (@throw A e).
Proof. intros w H. exact H. Qed.

Lemma preserves_bind {A B : Type} (m : M A) (f : A -> M B) :
  preserves m -> (forall a, preserves (f a)) -> preserves (m ≫= f).
Proof.
  intros Hm Hf w Hw. unfold mbind, M_bind. specialize (Hm w Hw).
  destruct (m w) as [[a|e] w']; [apply Hf|]; exact Hm.
Qed.

Lemma preserves_try_catch {A : Type} (m : M A) (h : exn -> M A) :
  preserves m -> (forall e, preserves (h e)) -> preserves (try_catch m h).
Proof.
  intros Hm Hh w Hw. unfold try_catch. specialize (Hm w Hw).
  destruct (m w) as [[a|e] w']; [|apply Hh]; exact Hm.
Qed.

Lemma preserves_console_error (s : string) : preserves (console_error s).
Proof. intros w H. exact H. Qed.

Lemma preserves_newObjectId (id : string) : preserves (newObjectId id).
Proof.
  unfold newObjectId. destruct (parseObjectId id);
    [apply preserves_ret | apply preserves_throw].
Qed.

Lemma preserves_find (c : coll) (q : query) : preserves (find c q).
Proof. intros w H. rewrite find_run. exact H. Qed.

Lemma preserves_findOne (c : coll) (q : query) : preserves (findOne c q).
Proof. intros w H. rewrite findOne_run. exact H. Qed.

Lemma preserves_deleteOne (c : coll) (q : query) : preserves (deleteOne c q).
Proof.
  intros w H. rewrite deleteOne_run. cbv zeta.
  destruct (reachable w); [|exact H].
  destruct (remove_first _ _) as [docs'|] eqn:Hrm; [|exact H].
  apply store_wf_write; [exact H|].
  exact (remove_first_unique_index _ _ _
           (proj1 (store_wf_collections w) H c) Hrm).
Qed.

Lemma preserves_updateOne (c : coll) (q : query) (set : doc) :
  preserves (updateOne c q set).
Proof.
  intros w H. rewrite updateOne_run. cbv zeta.
  destruct (reachable w); [|exact H].
  destruct (List.find _ _) as [d|] eqn:Hfind; [|exact H].
  destruct (changes_id set d) eqn:Hch; [exact H|].
  apply store_wf_write; [exact H|].
  apply (replace_first_unique_index _ _ d);
    [apply store_wf_collections, H | exact Hfind | apply set_keeps_id, Hch].
Qed.

Lemma preserves_insertOne (createPk : nat -> ObjectId) (c : coll) (d : doc) :
  preserves (insertOne createPk c d).
Proof.
  intros w H. rewrite insertOne_run. cbv zeta.
  assert (Hsame : forall k (b : bool),
            store_wf (snd (record k (if b then snd (nextPk createPk w)
                                     else w))) = true)
    by (intros k []; exact H).
  destruct (reachable w); [|apply Hsame].
  destruct (is_array _) eqn:Ha; [apply Hsame|].
  destruct (existsb _ _) eqn:He; [apply Hsame|].
  apply store_wf_write; [apply Hsame|].
  pose proof (proj1 (store_wf_collections w) H c) as Hu.
  unfold leaves_id_to_driver in *.
  destruct (d !! "_id") as [v|] eqn:Hv.
  - destruct v;
      try (rewrite Hv in Ha, He;
           apply (insert_unique_index _ _ _ Hu Hv); [exact Ha | exact He]).
    rewrite lookup_insert_eq in He.
    apply (insert_unique_index _ _ (VOid (createPk (pkIssued w))) Hu);
      [apply lookup_insert_eq | reflexivity | exact He].
  - rewrite lookup_insert_eq in He.
    apply (insert_unique_index _ _ (VOid (createPk (pkIssued w))) Hu);
      [apply lookup_insert_eq | reflexivity | exact He].
Qed.

Lemma preserves_authenticate
    (verifyIdToken : string -> option DecodedIdToken) (req : request)
    (next : DecodedIdToken -> M response) :
  (forall user, preserves (next user)) ->
  preserves (Secured.authenticateFirebaseToken verifyIdToken req next).
Proof.
  intros Hnext. unfold Secured.authenticateFirebaseToken.
  destruct (authorization req) as [h|]; [|apply preserves_ret].
  destruct (_ || _); [apply preserves_ret|].
  destruct (_ ≫= _); [apply Hnext|].
  apply preserves_bind; [apply preserves_console_error|].
  intros _. apply preserves_ret.
Qed.

Create HintDb preserve.

#[local] Hint Resolve preserves_ret preserves_throw preserves_console_error
  preserves_newObjectId preserves_find preserves_findOne preserves_deleteOne
  preserves_updateOne preserves_insertOne : preserve.

Ltac preserve :=
  repeat first
    [ solve [auto with preserve]
    | apply preserves_authenticate
    | apply preserves_try_catch
    | match goal with
      | |- forall _, _ => intro
      | |- preserves (match ?x with _ => _ end) => destruct x
      | |- preserves (_ ≫= _) => apply preserves_bind
      end ].

(** X18. Every request leaves the unique index of both collections
    intact, so the index holds in every state the application reaches from
    the empty store. *)
Lemma secured_app_preserves_wf
    (createPk : nat -> ObjectId)
    (verifyIdToken : string -> option DecodedIdToken)
    (req : request) (w : world) :
  store_wf w = true ->
  store_wf (snd (Secured.app createPk verifyIdToken req w)) = true.
Proof.
  intros Hw.
  assert (Hp : preserves (Secured.handler createPk verifyIdToken req)).
  { unfold Secured.handler.
    destruct (target req);
      unfold Secured.get_root, Secured.post_notes, Secured.get_notes,
        Secured.get_notes_id, Secured.put_notes_id, Secured.delete_notes_id,
        Secured.post_folders, Secured.get_folders, Secured.get_folders_id,
        Secured.delete_folders_id;
      preserve. }
  specialize (Hp w Hw). unfold Secured.app, serve.
  destruct (Secured.handler _ _ _ w) as [[r|e] w']; exact Hp.
Qed.

Lemma index_app_preserves_wf (req : request) (w : world) :
  store_wf w = true -> store_wf (snd (Index.app req w)) = true.
Proof.
  intros Hw.
  assert (Hp : preserves (Index.handler req)).
  { unfold Index.handler.
    destruct (target req);
      unfold Index.get_root, Index.get_notes, Index.get_notes_id,
        Index.get_folders;
      preserve. }
  specialize (Hp w Hw). unfold Index.app, serve.
  destruct (Index.handler _ w) as [[r|e] w']; exact Hp.
Qed.

Lemma empty_store_wf (up : bool) : store_wf (Sample.empty up) = true.
Proof. reflexivity. Qed.


(* ===================================================================== *)
(** * Further properties of the handlers                                  *)
(* ===================================================================== *)

(** ** Authentication, case by case *)

Lemma authenticates_functional
    (verifyIdToken : string -> option DecodedIdToken) (req : request)
    (u1 u2 : DecodedIdToken) :
  authenticates verifyIdToken req u1 -> authenticates verifyIdToken req u2 ->
  u1 = u2.
Proof.
  intros (h1 & t1 & Hh1 & _ & Ht1 & Hv1) (h2 & t2 & Hh2 & _ & Ht2 & Hv2).
  congruence.
Qed.

Lemma authenticate_cases
    (verifyIdToken : string -> option DecodedIdToken) (req : request)
    (next : DecodedIdToken -> M response) (w : world) :
  (exists user,
     authenticates verifyIdToken req user
     /\ Secured.authenticateFirebaseToken verifyIdToken req next w
        = next user w)
  \/ ((forall user, ~ authenticates verifyIdToken req user)
      /\ (Secured.authenticateFirebaseToken verifyIdToken req next w
          = (inl (mkResponse 401 (Message "Unauthorized")), w)
          \/ Secured.authenticateFirebaseToken verifyIdToken req next w
             = (inl (mkResponse 403 (Message "Invalid token")),
                snd (console_error "Firebase auth error:" w)))).
Proof.
  destruct (authorization req) as [h|] eqn:Hh.
  - destruct (String.prefix "Bearer " h) eqn:Hp.
    + destruct (idToken_bearer h Hp) as [tok Ht].
      destruct (verifyIdToken tok) as [user|] eqn:Hv.
      * left. exists user.
        assert (Hauth : authenticates verifyIdToken req user)
          by (exists h, tok; auto).
        split; [exact Hauth|].
        rewrite (authenticate_next _ _ user) by exact Hauth. reflexivity.
      * right. split.
        -- intros user (h' & tok' & H1 & _ & H3 & H4). congruence.
        -- right. apply (authenticate_invalid _ _ _ _ h Hh Hp).
           rewrite Ht. exact Hv.
    + right. split.
      * intros user (h' & tok' & H1 & H2 & _). congruence.
      * left. apply authenticate_missing. right. eauto.
  - right. split.
    + intros user (h' & tok' & H1 & _). congruence.
    + left. apply authenticate_missing. left. exact Hh.
Qed.

Ltac unfold_handlers :=
  unfold Secured.get_root, Secured.post_notes, Secured.get_notes,
    Secured.get_notes_id, Secured.put_notes_id, Secured.delete_notes_id,
    Secured.post_folders, Secured.get_folders, Secured.get_folders_id,
    Secured.delete_folders_id, try_catch, mbind, M_bind, newObjectId.

(** Run the handler of an authenticated request: every branch of the
    driver call becomes a goal. *)
Ltac run_ops w :=
  unfold_handlers;
  try match goal with
      | |- context [parseObjectId ?id] => destruct (parseObjectId id) eqn:?
      end;
  cbv beta iota delta [mret M_ret throw];
  rewrite ?insertOne_run, ?find_run, ?findOne_run, ?updateOne_run,
    ?deleteOne_run;
  cbv zeta;
  destruct (reachable w) eqn:?;
  repeat match goal with
         | |- context [is_array ?v] => destruct (is_array v) eqn:?
         | |- context [existsb ?p ?l] => destruct (existsb p l) eqn:?
         | |- context [List.find ?p ?l] => destruct (List.find p l) eqn:?
         | |- context [remove_first ?p ?l] =>
             destruct (remove_first p l) eqn:?
         | |- context [changes_id ?s ?d] => destruct (changes_id s d) eqn:?
         end.

(** ** Documents of other users under a scoped query *)

Lemma owner_query_foreign (who owner : string) (d : doc) :
  d !! "userId" = Some (VStr owner) -> owner <> who ->
  field_match (d !! "userId") (VStr who) = false.
Proof.
  intros Hown Hne. rewrite Hown. cbn.
  rewrite orb_false_r. apply String.eqb_neq. exact Hne.
Qed.

Lemma scoped_query_foreign (who owner : string) (o : ObjectId) (d : doc) :
  d !! "userId" = Some (VStr owner) -> owner <> who ->
  matches [("_id", VOid o); ("userId", VStr who)] d = false.
Proof.
  intros Hown Hne. unfold matches. cbn [forallb fst snd].
  rewrite (owner_query_foreign who owner d Hown Hne).
  apply andb_false_r.
Qed.

Lemma scoped_query_userId (who : string) (o : ObjectId) (d : doc) :
  matches [("_id", VOid o); ("userId", VStr who)] d = true ->
  field_match (d !! "userId") (VStr who) = true.
Proof.
  unfold matches. cbn [forallb fst snd]. rewrite !andb_true_iff. tauto.
Qed.

Lemma replace_first_keeps (p : doc -> bool) (x d : doc) (docs : list doc) :
  d ∈ docs -> p d = false -> d ∈ replace_first p x docs.
Proof.
  induction docs as [|y docs IH]; intros Hin Hp.
  - exact Hin.
  - cbn. apply elem_of_cons in Hin as [-> | Hin].
    + rewrite Hp. apply elem_of_cons. auto.
    + destruct (p y); apply elem_of_cons; auto.
Qed.

Lemma remove_first_keeps (p : doc -> bool) (d : doc) (docs docs' : list doc) :
  remove_first p docs = Some docs' -> d ∈ docs -> p d = false -> d ∈ docs'.
Proof.
  revert docs'. induction docs as [|y docs IH]; intros docs' H Hin Hp.
  - discriminate H.
  - cbn in H. destruct (p y) eqn:Hy.
    + injection H as <-. apply elem_of_cons in Hin as [-> | Hin];
        [congruence | exact Hin].
    + destruct (remove_first p docs) as [r|]; [|discriminate H].
      injection H as <-. apply elem_of_cons in Hin as [-> | Hin];
        apply elem_of_cons; eauto.
Qed.

Section Shape.

Variable createPk : nat -> ObjectId.
Variable verifyIdToken : string -> option DecodedIdToken.

Let app := Secured.app createPk verifyIdToken.

(** X1. No exception leaves a handler: whatever the request and the state of
    the store, the handler itself produces the response, and its status is
    one of seven. *)
Theorem handlers_catch_everything (req : request) (w : world) :
  exists res w',
    Secured.handler createPk verifyIdToken req w = (inl res, w')
    /\ In (status res) [200; 201; 400; 401; 403; 404; 500].
Proof.
  unfold Secured.handler.
  destruct (target req) as [ | | |id|id|id| | |id|id];
    [ eexists _, _; split; [reflexivity | cbn; auto] | .. ];
    match goal with
    | |- context [Secured.authenticateFirebaseToken _ _ ?next w] =>
        destruct (authenticate_cases verifyIdToken req next w)
          as [(user & _ & ->) | (_ & [-> | ->])]
    end;
    try (eexists _, _; split; [reflexivity | cbn; tauto]);
    run_ops w; cbn;
    try (eexists _, _; split; [reflexivity | cbn; tauto]).
Qed.

(** X2. Each request issues at most one call on a collection handle. *)
Theorem at_most_one_store_call (req : request) (w : world) :
  calls (snd (app req w)) = calls w
  \/ exists k, calls (snd (app req w)) = calls w ++ [k].
Proof.
  unfold app, Secured.app, serve, Secured.handler.
  destruct (target req) as [ | | |id|id|id| | |id|id];
    [ left; reflexivity | .. ];
    match goal with
    | |- context [Secured.authenticateFirebaseToken _ _ ?next w] =>
        destruct (authenticate_cases verifyIdToken req next w)
          as [(user & _ & ->) | (_ & [-> | ->])]
    end;
    try (left; reflexivity);
    run_ops w; try destruct (leaves_id_to_driver _);
    cbn; try (left; reflexivity); right; eexists; reflexivity.
Qed.

(** X3. On a protected route the status tells whether the credential was
    accepted: the request authenticates exactly when the answer is neither
    401 nor 403. *)
Theorem authenticated_iff_not_rejected (req : request) (w : world) :
  protected (target req) = true ->
  (exists user, authenticates verifyIdToken req user)
  <-> (status (fst (app req w)) <> 401 /\ status (fst (app req w)) <> 403).
Proof.
  intros Hprot. unfold app, Secured.app, serve, Secured.handler.
  destruct (target req) as [ | | |id|id|id| | |id|id];
    try discriminate Hprot;
    match goal with
    | |- context [Secured.authenticateFirebaseToken _ _ ?next w] =>
        destruct (authenticate_cases verifyIdToken req next w)
          as [(user & Hauth & ->) | (Hno & [-> | ->])]
    end;
    try (split; [intros [user Hu]; destruct (Hno user Hu)
                | cbn; intros [H1 H2]; congruence]);
    (split; [intros _ | intros _; exists user; exact Hauth]);
    run_ops w; cbn; split; discriminate.
Qed.

(** X4. A collection changes only through an authenticated write request on
    that collection which is answered 200 or 201: a request for another
    collection or of the GET method, a request that does not authenticate,
    a request answered with an error, all leave it as it was. *)
Theorem writes_are_confined (c : coll) (req : request) (w : world) :
  (writes_to (target req) <> Some c
   \/ (forall user, ~ authenticates verifyIdToken req user)
   \/ (status (fst (app req w)) <> 200 /\ status (fst (app req w)) <> 201)) ->
  collection c (snd (app req w)) = collection c w.
Proof.
  unfold app, Secured.app, serve, Secured.handler.
  destruct (target req) as [ | | |id|id|id| | |id|id];
    [ intros _; reflexivity | .. ];
    match goal with
    | |- context [Secured.authenticateFirebaseToken _ _ ?next w] =>
        destruct (authenticate_cases verifyIdToken req next w)
          as [(user & Hauth & ->) | (Hno & [-> | ->])]
    end;
    try (intros _; destruct c; reflexivity);
    run_ops w; try destruct (leaves_id_to_driver _); cbn;
    try (intros _; destruct c; reflexivity);
    (intros [Hw | [Hno | [H1 H2]]];
     [ destruct c; try reflexivity; contradiction Hw; reflexivity
     | destruct (Hno user Hauth)
     | congruence ]).
Qed.

(** X5. Every document a response carries satisfies the owner condition of
    the user the request authenticates as, and comes from a collection;
    a request that does not authenticate is never answered with a
    document. *)
Theorem returned_documents_are_scoped (req : request) (w : world) (d : doc) :
  returned d (fst (app req w)) ->
  exists user c,
    authenticates verifyIdToken req user
    /\ d ∈ collection c w
    /\ field_match (d !! "userId") (VStr (uid user)) = true.
Proof.
  unfold returned, app, Secured.app, serve, Secured.handler.
  destruct (target req) as [ | | |id|id|id| | |id|id];
    [ intros Hf; exact (False_ind _ Hf) | .. ];
    match goal with
    | |- context [Secured.authenticateFirebaseToken _ _ ?next w] =>
        destruct (authenticate_cases verifyIdToken req next w)
          as [(user & Hauth & ->) | (Hno & [-> | ->])]
    end;
    try (intros Hf; exact (False_ind _ Hf));
    run_ops w; try destruct (leaves_id_to_driver _); cbn;
    try (intros Hf; exact (False_ind _ Hf)).
  all: intros Hret.
  all: try (apply filter_In in Hret as [Hin Hm];
            unfold matches in Hm; cbn [forallb fst snd] in Hm;
            rewrite andb_true_r in Hm).
  all: try (subst d;
            match goal with
            | H : List.find _ _ = Some _ |- _ =>
                apply find_some in H as [Hin Hm];
                apply scoped_query_userId in Hm
            end).
  all: apply list_elem_of_In in Hin.
  all: first [ exists user, Notes; split; [exact Hauth|];
               split; [exact Hin | exact Hm]
             | exists user, Folders; split; [exact Hauth|];
               split; [exact Hin | exact Hm] ].
Qed.

(** X6. No request removes or alters a document that carries the owner
    identifier of somebody other than the user it authenticates as. *)
Theorem foreign_documents_stay (c : coll) (req : request) (w : world)
    (d : doc) (owner : string) :
  d ∈ collection c w ->
  d !! "userId" = Some (VStr owner) ->
  (forall user, authenticates verifyIdToken req user -> uid user <> owner) ->
  d ∈ collection c (snd (app req w)).
Proof.
  intros Hin Hown Hother.
  unfold app, Secured.app, serve, Secured.handler.
  destruct (target req) as [ | | |id|id|id| | |id|id];
    [ exact Hin | .. ];
    match goal with
    | |- context [Secured.authenticateFirebaseToken _ _ ?next w] =>
        destruct (authenticate_cases verifyIdToken req next w)
          as [(user & Hauth & ->) | (Hno & [-> | ->])]
    end;
    try (destruct c; exact Hin);
    assert (Hne : owner <> uid user)
      by (intros ->; exact (Hother user Hauth eq_refl));
    run_ops w; try destruct (leaves_id_to_driver _); cbn;
    try (destruct c; exact Hin).
  all: destruct c; cbn in Hin |- *; try exact Hin.
  all: try (apply elem_of_app; left; exact Hin).
  all: try (apply replace_first_keeps;
            [exact Hin | apply (scoped_query_foreign _ owner); assumption]).
  all: match goal with
       | H : remove_first _ _ = Some _ |- _ =>
           apply (remove_first_keeps _ _ _ _ H Hin),
                 (scoped_query_foreign _ owner); assumption
       end.
Qed.

End Shape.

(** ** The first match of a query, located *)

Lemma find_split (p : doc -> bool) (docs : list doc) (d : doc) :
  List.find p docs = Some d ->
  exists l1 l2,
    docs = l1 ++ d :: l2
    /\ (forall x, x ∈ l1 -> p x = false)
    /\ p d = true
    /\ (forall x, replace_first p x docs = l1 ++ x :: l2)
    /\ remove_first p docs = Some (l1 ++ l2).
Proof.
  induction docs as [|y docs IH]; intros H; [discriminate H|].
  cbn in H. destruct (p y) eqn:Hy.
  - injection H as ->. exists [], docs. cbn. rewrite Hy.
    repeat split; auto. intros x Hx. apply elem_of_nil in Hx. contradiction.
  - destruct (IH H) as (l1 & l2 & -> & Hl1 & Hd & Hrep & Hrem).
    exists (y :: l1), l2. cbn. rewrite Hy, Hrem.
    split; [reflexivity|]. split; [|split; [exact Hd|split]].
    + intros x Hx. apply elem_of_cons in Hx as [-> | Hx]; auto.
    + intros x. rewrite Hrep. reflexivity.
    + reflexivity.
Qed.

Lemma remove_first_find (p : doc -> bool) (docs docs' : list doc) :
  remove_first p docs = Some docs' -> exists d, List.find p docs = Some d.
Proof.
  revert docs'. induction docs as [|y docs IH]; intros docs' H.
  - discriminate H.
  - cbn in H |- *. destruct (p y); [eauto|].
    destruct (remove_first p docs) as [r|]; [|discriminate H]. eauto.
Qed.

Lemma find_unique (p : doc -> bool) (docs : list doc) (d : doc) :
  d ∈ docs -> p d = true ->
  (forall d', d' ∈ docs -> p d' = true -> d' = d) ->
  List.find p docs = Some d.
Proof.
  induction docs as [|y docs IH]; intros Hin Hp Huniq.
  - apply elem_of_nil in Hin. contradiction.
  - cbn. destruct (p y) eqn:Hy.
    + f_equal. apply Huniq; [apply elem_of_cons; auto | exact Hy].
    + apply elem_of_cons in Hin as [-> | Hin]; [congruence|].
      apply IH; auto. intros d' Hd'. apply Huniq, elem_of_cons. auto.
Qed.

Lemma filter_owner_app (who : string) (docs : list doc) (x : doc) :
  List.filter (matches (owner_query who)) (docs ++ [x])
  = List.filter (matches (owner_query who)) docs
    ++ (if field_match (x !! "userId") (VStr who) then [x] else []).
Proof.
  rewrite List.filter_app. cbn [List.filter]. unfold matches at 2.
  cbn [owner_query forallb fst snd]. rewrite andb_true_r. reflexivity.
Qed.

Lemma union_lookup (set d : doc) (k : string) :
  (set ∪ d) !! k = match set !! k with
                   | Some v => Some v
                   | None => d !! k
                   end.
Proof.
  destruct (set !! k) as [v|] eqn:E.
  - apply lookup_union_Some_l, E.
  - apply lookup_union_r, E.
Qed.

Lemma union_absorb (set d : doc) : set ∪ (set ∪ d) = set ∪ d.
Proof.
  apply map_eq. intros k. rewrite !union_lookup.
  destruct (set !! k); reflexivity.
Qed.

Lemma changes_id_after (set d : doc) :
  changes_id set d = false -> changes_id set (set ∪ d) = false.
Proof.
  intros H. pose proof (set_keeps_id set d H) as Hid.
  unfold changes_id, has_id in *. rewrite Hid. exact H.
Qed.

Lemma replace_first_again (p : doc -> bool) (x : doc) (docs : list doc) :
  p x = true ->
  replace_first p x (replace_first p x docs) = replace_first p x docs
  /\ (forall d, List.find p docs = Some d ->
                List.find p (replace_first p x docs) = Some x).
Proof.
  intros Hx. induction docs as [|y docs [IH1 IH2]]; cbn.
  - split; [reflexivity | discriminate].
  - destruct (p y) eqn:Hy; cbn; rewrite ?Hx, ?Hy.
    + split; [reflexivity | reflexivity].
    + rewrite IH1. split; [reflexivity | exact IH2].
Qed.

(** ** Splitting the authorization header *)

Lemma split_no_space (t : string) :
  no_space t = true -> split " " t = [t].
Proof.
  induction t as [|c t IH]; [reflexivity|].
  cbn [split no_space]. rewrite andb_true_iff, negb_true_iff.
  intros [Hc Ht]. rewrite Hc, (IH Ht). reflexivity.
Qed.

Lemma split_at_space (t rest : string) :
  no_space t = true ->
  split " " (String.append t (String " " rest)) = t :: split " " rest.
Proof.
  induction t as [|c t IH]; [reflexivity|].
  change (String.append (String c t) (String " " rest))
    with (String c (String.append t (String " " rest))).
  cbn [split no_space]. rewrite andb_true_iff, negb_true_iff.
  intros [Hc Ht]. rewrite Hc, (IH Ht). reflexivity.
Qed.

Lemma prefix_append (s t : string) :
  String.prefix s (String.append s t) = true.
Proof.
  induction s as [|a s IH]; [destruct t; reflexivity|].
  change (String.append (String a s) t) with (String a (String.append s t)).
  cbn [String.prefix]. destruct (ascii_dec a a); [exact IH | congruence].
Qed.

Lemma idToken_bearer_piece (t : string) :
  no_space t = true ->
  idToken (String.append "Bearer " t) = Some t
  /\ forall rest,
       idToken (String.append "Bearer " (String.append t (String " " rest)))
       = Some t.
Proof.
  intros Ht. unfold idToken.
  assert (Hb : forall s, split " " (String.append "Bearer " s)
                         = "Bearer" :: split " " s) by reflexivity.
  split.
  - rewrite Hb, (split_no_space t Ht). reflexivity.
  - intros rest. rewrite Hb, (split_at_space t rest Ht). reflexivity.
Qed.

(** X7. Of the authorization header the middleware hands to the verifier
    only the piece between the first and the second space.  On a header
    [Bearer t], with or without further text after a space, it runs the
    route's handler with the user the verifier returns for [t], and
    answers 403 when the verifier rejects [t]. *)
Theorem bearer_credential
    (verifyIdToken : string -> option DecodedIdToken)
    (t : string) (r : route) (b : doc)
    (next : DecodedIdToken -> M response) (w : world) :
  no_space t = true ->
  let answer :=
    match verifyIdToken t with
    | Some user => next user w
    | None => (inl (mkResponse 403 (Message "Invalid token")),
               snd (console_error "Firebase auth error:" w))
    end in
  Secured.authenticateFirebaseToken verifyIdToken
    (mkRequest r (Some (String.append "Bearer " t)) b) next w
  = answer
  /\ forall rest,
       Secured.authenticateFirebaseToken verifyIdToken
         (mkRequest r
            (Some (String.append "Bearer "
                     (String.append t (String " " rest)))) b) next w
       = answer.
Proof.
  intros Ht answer. subst answer.
  destruct (idToken_bearer_piece t Ht) as [H1 H2].
  destruct (verifyIdToken t) as [user|] eqn:Hv.
  - split; [|intros rest];
      rewrite (authenticate_next verifyIdToken _ user); try reflexivity.
    + exists (String.append "Bearer " t), t.
      split; [reflexivity|]. split; [apply prefix_append|].
      split; assumption.
    + exists (String.append "Bearer " (String.append t (String " " rest))), t.
      split; [reflexivity|]. split; [apply prefix_append|].
      split; [apply H2 | exact Hv].
  - split; [|intros rest].
    + apply (authenticate_invalid verifyIdToken _ _ _
               (String.append "Bearer " t));
        [reflexivity | apply prefix_append | rewrite H1; exact Hv].
    + apply (authenticate_invalid verifyIdToken _ _ _
               (String.append "Bearer "
                  (String.append t (String " " rest))));
        [reflexivity | apply prefix_append | rewrite H2; exact Hv].
Qed.

Lemma bearer_credential_witness :
  let next := Secured.get_notes (mkRequest GET_notes None ∅) in
  let w := Sample.one_each true in
  Secured.authenticateFirebaseToken Sample.verify
    (mkRequest GET_notes (Some "Bearer tok-u1") ∅) next w
  = next Sample.u1 w
  /\ forall rest,
       Secured.authenticateFirebaseToken Sample.verify
         (mkRequest GET_notes
            (Some (String.append "Bearer "
                     (String.append "tok-u1" (String " " rest)))) ∅) next w
       = next Sample.u1 w.
Proof.
  exact (bearer_credential Sample.verify "tok-u1" GET_notes ∅
           (Secured.get_notes (mkRequest GET_notes None ∅))
           (Sample.one_each true) eq_refl).
Defined.

(** ** Lists, reads, updates and deletes of the authenticated application *)

Section Operations.

Variable createPk : nat -> ObjectId.
Variable verifyIdToken : string -> option DecodedIdToken.

Let app := Secured.app createPk verifyIdToken.

Lemma list_run (c : coll) (req : request) (user : DecodedIdToken)
    (w : world) :
  authenticates verifyIdToken req user ->
  target req = list_route c ->
  fst (app req w)
  = (if reachable w
     then mkResponse 200
            (JsonDocs (List.filter (matches (owner_query (uid user)))
                                   (collection c w)))
     else list_failed c)
  /\ forall c', collection c' (snd (app req w)) = collection c' w.
Proof.
  intros Hauth Hroute.
  unfold app, Secured.app, serve, Secured.handler. rewrite Hroute.
  destruct c; cbn [list_route];
    rewrite (authenticate_next _ _ user) by exact Hauth;
    run_ops w; cbn; (split; [reflexivity | intros []; reflexivity]).
Qed.

Lemma put_run (id : string) (o : ObjectId) (req : request)
    (user : DecodedIdToken) (w : world) :
  authenticates verifyIdToken req user ->
  target req = PUT_notes_id id ->
  parseObjectId id = Some o ->
  reachable w = true ->
  let q := scoped_query o (uid user) in
  let w1 := snd (record (CallUpdateOne Notes q (body req)) w) in
  app req w
  = match List.find (matches q) (notesCollection w) with
    | None => (not_found Notes, w1)
    | Some d =>
        if changes_id (body req) d
        then (mkResponse 500 (Message "Failed to update note"),
              snd (console_error "Error updating note:" w1))
        else (mkResponse 200 (Message "Note updated successfully"),
              snd (write Notes
                     (replace_first (matches q) (body req ∪ d)
                                    (notesCollection w)) w1))
    end.
Proof.
  intros Hauth Hroute Hparse Hup.
  unfold app, Secured.app, serve, Secured.handler. rewrite Hroute.
  rewrite (authenticate_next _ _ user) by exact Hauth.
  unfold Secured.put_notes_id, try_catch, mbind, M_bind, newObjectId.
  rewrite Hparse. cbv beta iota delta [mret M_ret].
  rewrite updateOne_run, Hup. cbv zeta. cbn [collection].
  unfold scoped_query.
  destruct (List.find _ _) as [d|]; [|reflexivity].
  destruct (changes_id (body req) d); reflexivity.
Qed.

(** X8. The list routes: with the store up, an authenticated list answers
    200 with the documents of the collection that satisfy the owner
    condition of the requester, in the order of the collection; a document
    whose owner field is a subject identifier is listed exactly when that
    identifier is the requester's.  With the store down the answer is the
    route's 500.  The collections are not changed. *)
Theorem list_returns_own (c : coll) (req : request) (user : DecodedIdToken)
    (w : world) :
  authenticates verifyIdToken req user ->
  target req = list_route c ->
  let listed := List.filter (matches (owner_query (uid user)))
                            (collection c w) in
  fst (app req w)
  = (if reachable w then mkResponse 200 (JsonDocs listed) else list_failed c)
  /\ (forall d owner,
        d ∈ collection c w -> d !! "userId" = Some (VStr owner) ->
        (In d listed <-> owner = uid user))
  /\ (forall c', collection c' (snd (app req w)) = collection c' w).
Proof.
  intros Hauth Hroute listed. subst listed.
  destruct (list_run c req user w Hauth Hroute) as [Hres Hsame].
  split; [exact Hres|]. split; [|exact Hsame].
  intros d owner Hin Hown. rewrite filter_In.
  unfold matches, owner_query. cbn [forallb fst snd].
  rewrite Hown. cbn [field_match value_eqb].
  rewrite orb_false_r, andb_true_r, String.eqb_eq.
  split; [tauto|]. intros ->. split; [apply list_elem_of_In, Hin | reflexivity].
Qed.

(** X9. The by-id reads: on a reachable store whose collection keeps the
    unique index, the owner of a document gets it back, whole, under its
    identifier. *)
Theorem get_returns_owned (c : coll) (id : string) (o : ObjectId)
    (req : request) (user : DecodedIdToken) (w : world) (d : doc) :
  authenticates verifyIdToken req user ->
  target req = get_route c id ->
  parseObjectId id = Some o ->
  reachable w = true ->
  unique_index (collection c w) = true ->
  d ∈ collection c w ->
  d !! "_id" = Some (VOid o) ->
  d !! "userId" = Some (VStr (uid user)) ->
  fst (app req w) = mkResponse 200 (JsonDoc d)
  /\ forall c', collection c' (snd (app req w)) = collection c' w.
Proof.
  intros Hauth Hroute Hparse Hup Hu Hin Hid Hown.
  pose proof (get_run createPk verifyIdToken c id o req user w
                Hauth Hroute Hparse Hup) as Hrun.
  cbv zeta in Hrun. unfold app. rewrite Hrun. cbn [fst snd].
  rewrite (find_unique _ _ d Hin (scoped_query_owner _ _ _ Hid Hown)).
  - split; [reflexivity|]. intros c'. apply collection_record.
  - intros d' Hin' Hm.
    destruct (unique_index_elem _ _ Hu Hin') as (v & Hv & Ha).
    destruct (matches_id_inv _ _ _ _ Hv Ha Hm) as [-> _].
    apply (unique_index_inj (collection c w)); congruence.
Qed.

(** X10. An update whose body has field names for keys (none empty, none
    with a dot or a leading dollar, so that [$set] reads each as the name
    of a top-level field) and which is answered 200 changed one note, the
    first that satisfies the scoped query of the requester: that note now
    holds every field of the body and, for the names the body lacks, its
    former fields; its [_id] is what it was; the notes before and after
    it, and the folders, are untouched. *)
Theorem put_changes_one (id : string) (o : ObjectId) (req : request)
    (user : DecodedIdToken) (w : world) :
  authenticates verifyIdToken req user ->
  target req = PUT_notes_id id ->
  parseObjectId id = Some o ->
  plain_keys (body req) = true ->
  status (fst (app req w)) = 200 ->
  exists l1 d l2,
    notesCollection w = l1 ++ d :: l2
    /\ notesCollection (snd (app req w)) = l1 ++ (body req ∪ d) :: l2
    /\ matches (scoped_query o (uid user)) d = true
    /\ (forall x, x ∈ l1 -> matches (scoped_query o (uid user)) x = false)
    /\ (forall k, (body req ∪ d) !! k = match body req !! k with
                                        | Some v => Some v
                                        | None => d !! k
                                        end)
    /\ (body req ∪ d) !! "_id" = d !! "_id"
    /\ folderCollection (snd (app req w)) = folderCollection w.
Proof.
  intros Hauth Hroute Hparse _ H200.
  destruct (reachable w) eqn:Hup.
  - pose proof (put_run id o req user w Hauth Hroute Hparse Hup) as Hrun.
    cbv zeta in Hrun. rewrite Hrun in H200 |- *. clear Hrun.
    destruct (List.find _ _) as [d|] eqn:Hfind; [|discriminate H200].
    destruct (changes_id (body req) d) eqn:Hch; [discriminate H200|].
    destruct (find_split _ _ _ Hfind) as (l1 & l2 & Hdocs & Hl1 & Hd & Hrep & _).
    exists l1, d, l2. cbn [fst snd notesCollection folderCollection write].
    rewrite Hrep.
    repeat (split; [first [ exact Hdocs | reflexivity | exact Hd | exact Hl1
                          | intros k; apply union_lookup
                          | apply set_keeps_id, Hch ]|]).
    reflexivity.
  - exfalso. revert H200.
    unfold app, Secured.app, serve, Secured.handler. rewrite Hroute.
    rewrite (authenticate_next _ _ user) by exact Hauth.
    unfold Secured.put_notes_id, try_catch, mbind, M_bind, newObjectId.
    rewrite Hparse. cbv beta iota delta [mret M_ret].
    rewrite updateOne_run, Hup. cbn. discriminate.
Qed.

(** X11. Updating twice is updating once: when the body has field names
    for keys (none empty, none with a dot or a leading dollar) and does not
    name the owner field, an update answered 200 is answered 200 again when
    it is repeated, and the repetition leaves both collections as the first
    update left them. *)
Theorem put_idempotent (id : string) (o : ObjectId) (req : request)
    (user : DecodedIdToken) (w : world) :
  authenticates verifyIdToken req user ->
  target req = PUT_notes_id id ->
  parseObjectId id = Some o ->
  plain_keys (body req) = true ->
  body req !! "userId" = None ->
  status (fst (app req w)) = 200 ->
  let w1 := snd (app req w) in
  status (fst (app req w1)) = 200
  /\ forall c, collection c (snd (app req w1)) = collection c w1.
Proof.
  intros Hauth Hroute Hparse _ Hbody H200 w1. subst w1.
  destruct (reachable w) eqn:Hup.
  - pose proof (put_run id o req user w Hauth Hroute Hparse Hup) as Hrun.
    cbv zeta in Hrun. rewrite Hrun in H200 |- *. clear Hrun.
    destruct (List.find _ _) as [d|] eqn:Hfind; [|discriminate H200].
    destruct (changes_id (body req) d) eqn:Hch; [discriminate H200|].
    cbn [snd]. set (q := scoped_query o (uid user)) in *.
    set (x := body req ∪ d).
    set (w1 := snd (write Notes _ _)).
    assert (Hup1 : reachable w1 = true) by exact Hup.
    assert (Hx : matches q x = true).
    { pose proof (find_some _ _ Hfind) as [_ Hd].
      unfold matches, q, scoped_query in Hd |- *.
      cbn [forallb fst snd] in Hd |- *. subst x.
      rewrite (set_keeps_id _ _ Hch).
      rewrite (lookup_union_r _ _ _ Hbody). exact Hd. }
    destruct (replace_first_again (matches q) x (notesCollection w) Hx)
      as [Hagain Hfind1].
    pose proof (put_run id o req user w1 Hauth Hroute Hparse Hup1) as Hrun1.
    cbv zeta in Hrun1. fold q in Hrun1.
    assert (Hn1 : notesCollection w1
                  = replace_first (matches q) x (notesCollection w))
      by reflexivity.
    rewrite Hn1, (Hfind1 d Hfind) in Hrun1.
    assert (Hch1 : changes_id (body req) x = false)
      by (apply changes_id_after, Hch).
    rewrite Hch1 in Hrun1. rewrite Hrun1. cbn [fst snd].
    split; [reflexivity|].
    intros []; cbn; [|reflexivity].
    subst x. rewrite union_absorb. exact Hagain.
  - exfalso. revert H200.
    unfold app, Secured.app, serve, Secured.handler. rewrite Hroute.
    rewrite (authenticate_next _ _ user) by exact Hauth.
    unfold Secured.put_notes_id, try_catch, mbind, M_bind, newObjectId.
    rewrite Hparse. cbv beta iota delta [mret M_ret].
    rewrite updateOne_run, Hup. cbn. discriminate.
Qed.

(** X12. A delete answered 200 removed one document, the first that
    satisfies the scoped query of the requester; the documents before and
    after it keep their places. *)
Theorem delete_removes_one (c : coll) (id : string) (o : ObjectId)
    (req : request) (user : DecodedIdToken) (w : world) :
  authenticates verifyIdToken req user ->
  target req = delete_route c id ->
  parseObjectId id = Some o ->
  status (fst (app req w)) = 200 ->
  exists l1 d l2,
    collection c w = l1 ++ d :: l2
    /\ collection c (snd (app req w)) = l1 ++ l2
    /\ matches (scoped_query o (uid user)) d = true
    /\ (forall x, x ∈ l1 -> matches (scoped_query o (uid user)) x = false).
Proof.
  intros Hauth Hroute Hparse H200.
  destruct (reachable w) eqn:Hup.
  - pose proof (delete_run createPk verifyIdToken c id o req user w
                  Hauth Hroute Hparse Hup) as Hrun.
    cbv zeta in Hrun. unfold app in *. rewrite Hrun in H200 |- *. clear Hrun.
    destruct (remove_first _ _) as [docs'|] eqn:Hrm;
      [|destruct c; discriminate H200].
    destruct (remove_first_find _ _ _ Hrm) as [d Hfind].
    destruct (find_split _ _ _ Hfind) as (l1 & l2 & Hdocs & Hl1 & Hd & _ & Hrem).
    exists l1, d, l2. cbn [fst snd]. rewrite collection_write.
    assert (docs' = l1 ++ l2) by congruence. subst docs'.
    split; [exact Hdocs|]. split; [reflexivity|]. split; [exact Hd | exact Hl1].
  - exfalso. revert H200.
    unfold app, Secured.app, serve, Secured.handler. rewrite Hroute.
    destruct c; cbn [delete_route];
      rewrite (authenticate_next _ _ user) by exact Hauth;
      unfold Secured.delete_notes_id, Secured.delete_folders_id, try_catch,
        mbind, M_bind, newObjectId;
      rewrite Hparse; cbv beta iota delta [mret M_ret];
      rewrite deleteOne_run, Hup; cbn; discriminate.
Qed.

End Operations.

(** ** Creating, then listing; creating under a taken identifier *)

Section CreateMore.

Variable createPk : nat -> ObjectId.
Variable verifyIdToken : string -> option DecodedIdToken.

Let app := Secured.app createPk verifyIdToken.

(** X13. After a create answered 201 the new document closes the list of its
    creator -- the list of that collection is the former list followed by
    the document -- while the list of any user with another identifier is
    what it was. *)
Theorem create_then_list (c : coll) (req : request) (user : DecodedIdToken)
    (w : world) :
  authenticates verifyIdToken req user ->
  target req = create_route c ->
  status (fst (app req w)) = 201 ->
  exists sent : doc,
    sent !! "userId" = Some (VStr (uid user))
    /\ collection c (snd (app req w)) = collection c w ++ [sent]
    /\ forall req' user',
         authenticates verifyIdToken req' user' ->
         target req' = list_route c ->
         fst (app req' (snd (app req w)))
         = mkResponse 200
             (JsonDocs
                (List.filter (matches (owner_query (uid user')))
                             (collection c w)
                 ++ (if String.eqb (uid user) (uid user')
                     then [sent] else []))).
Proof.
  intros Hauth Hroute H201.
  pose proof (create_run createPk verifyIdToken c req user w Hauth Hroute)
    as Hrun.
  cbv zeta in Hrun. unfold app in *. rewrite Hrun in H201 |- *. clear Hrun.
  destruct (reachable w) eqn:Hup; cbn [andb] in H201 |- *;
    [|destruct c; discriminate H201].
  destruct (_ && _); [|destruct c; discriminate H201].
  cbn [fst snd]. set (sent := if leaves_id_to_driver _ then _ else _).
  set (w1 := snd (write c _ _)).
  assert (Hown : sent !! "userId" = Some (VStr (uid user))).
  { subst sent. destruct (leaves_id_to_driver _).
    - rewrite lookup_insert_ne by discriminate. apply lookup_insert_eq.
    - apply lookup_insert_eq. }
  assert (Hc1 : collection c w1 = collection c w ++ [sent])
    by apply collection_write.
  assert (Hup1 : reachable w1 = true).
  { subst w1. destruct (leaves_id_to_driver (body req)), c; exact Hup. }
  exists sent. split; [exact Hown|]. split; [exact Hc1|].
  intros req' user' Hauth' Hroute'.
  destruct (list_run createPk verifyIdToken c req' user' w1 Hauth' Hroute')
    as [Hres _].
  rewrite Hres, Hup1, Hc1, filter_owner_app, Hown.
  cbn [field_match value_eqb]. rewrite orb_false_r. reflexivity.
Qed.

(** X14. A create whose body names an [_id] that a document of the
    collection already has is answered with the route's 500, and the
    collection stays as it was. *)
Theorem create_duplicate_rejected (c : coll) (req : request)
    (user : DecodedIdToken) (w : world) (v : value) (d : doc) :
  authenticates verifyIdToken req user ->
  target req = create_route c ->
  body req !! "_id" = Some v -> v <> VNull ->
  d ∈ collection c w -> d !! "_id" = Some v ->
  fst (app req w) = create_failed c
  /\ forall c', collection c' (snd (app req w)) = collection c' w.
Proof.
  intros Hauth Hroute Hv Hnn Hin Hid.
  pose proof (create_run createPk verifyIdToken c req user w Hauth Hroute)
    as Hrun.
  cbv zeta in Hrun. unfold app. rewrite Hrun. clear Hrun.
  assert (Hgen : leaves_id_to_driver (body req) = false).
  { unfold leaves_id_to_driver. rewrite Hv. destruct v; congruence. }
  rewrite Hgen. rewrite lookup_insert_ne by discriminate. rewrite Hv.
  change (default VNull (Some v)) with v.
  rewrite (existsb_has_id v _ d Hin Hid).
  cbn [negb]. rewrite andb_false_r. cbn [fst snd].
  split; [reflexivity|]. intros []; destruct c; reflexivity.
Qed.

End CreateMore.

(** ** The entry points without authentication *)

(** X19. [src/index.js] registers reads only: no request changes a
    collection or asks the key factory for an identifier, and a request for
    any route but its four is answered 404 without a store call. *)
Theorem index_is_read_only (req : request) (w : world) :
  (forall c, collection c (snd (Index.app req w)) = collection c w)
  /\ pkIssued (snd (Index.app req w)) = pkIssued w
  /\ match target req with
     | GET_root | GET_notes | GET_notes_id _ | GET_folders => True
     | _ => Index.app req w = (mkResponse 404 NoRoute, w)
     end.
Proof.
  unfold Index.app, serve, Index.handler.
  destruct (target req) as [ | | |id|id|id| | |id|id];
    try (split; [intros []; reflexivity | split; reflexivity]);
    unfold Index.get_notes, Index.get_notes_id, Index.get_folders,
      try_catch, mbind, M_bind, newObjectId;
    try destruct (parseObjectId id);
    cbv beta iota delta [mret M_ret throw];
    rewrite ?find_run, ?findOne_run; cbv zeta;
    destruct (reachable w);
    try match goal with
        | |- context [List.find ?p ?l] => destruct (List.find p l)
        end;
    cbn; (split; [intros []; reflexivity | split; [reflexivity | exact I]]).
Qed.

(** X20. The first listing answers [GET /notes] like [src/index.js] does:
    whatever the authorization header and the body, with the store up it is
    200 with every note of the collection, with the store down 500; nothing
    is written. *)
Theorem legacy_list_unscoped (h : option string) (b : doc) (w : world) :
  fst (Legacy.app (mkRequest GET_notes h b) w)
  = (if reachable w
     then mkResponse 200 (JsonDocs (notesCollection w))
     else mkResponse 500 (Message "Failed to fetch notes"))
  /\ Legacy.app (mkRequest GET_notes h b) w
     = Index.app (mkRequest GET_notes h b) w
  /\ forall c,
       collection c (snd (Legacy.app (mkRequest GET_notes h b) w))
       = collection c w.
Proof.
  unfold Legacy.app, Index.app, serve, Legacy.handler, Index.handler.
  cbn [target].
  unfold Legacy.get_notes, Index.get_notes, try_catch, mbind, M_bind.
  rewrite find_run. destruct (reachable w); cbn;
    rewrite ?filter_matches_nil;
    (split; [reflexivity | split; [reflexivity | intros []; reflexivity]]).
Qed.

(** ** The properties above, on the sample deployment *)

Lemma sample_u1_authenticates (r : route) (b : doc) :
  authenticates Sample.verify (Sample.as_u1 r b) Sample.u1.
Proof.
  exists "Bearer tok-u1", "tok-u1". split; [|split; [|split]]; reflexivity.
Qed.

Lemma sample_u2_authenticates (r : route) (b : doc) :
  authenticates Sample.verify (Sample.as_u2 r b) Sample.u2.
Proof.
  exists "Bearer tok-u2", "tok-u2". split; [|split; [|split]]; reflexivity.
Qed.

Lemma note_A_listed : Sample.note_A ∈ collection Notes (Sample.one_each true).
Proof. apply elem_of_cons. left. reflexivity. Qed.

Lemma authenticated_iff_not_rejected_witness :
  let req := Sample.as_u1 GET_notes ∅ in
  (exists user, authenticates Sample.verify req user)
  <-> (status (fst (Sample.app req (Sample.empty true))) <> 401
       /\ status (fst (Sample.app req (Sample.empty true))) <> 403).
Proof.
  exact (authenticated_iff_not_rejected Sample.pk Sample.verify
           (Sample.as_u1 GET_notes ∅) (Sample.empty true) eq_refl).
Defined.

Lemma writes_are_confined_witness :
  collection Folders
    (snd (Sample.app (Sample.as_u1 (DELETE_notes_id Sample.n1) ∅)
                     (Sample.one_each true)))
  = collection Folders (Sample.one_each true).
Proof.
  apply (writes_are_confined Sample.pk Sample.verify Folders
           (Sample.as_u1 (DELETE_notes_id Sample.n1) ∅)
           (Sample.one_each true)).
  left. discriminate.
Defined.

Lemma returned_documents_are_scoped_witness :
  exists user c,
    authenticates Sample.verify (Sample.as_u1 GET_notes ∅) user
    /\ Sample.note_A ∈ collection c (Sample.one_each true)
    /\ field_match (Sample.note_A !! "userId") (VStr (uid user)) = true.
Proof.
  apply (returned_documents_are_scoped Sample.pk Sample.verify
           (Sample.as_u1 GET_notes ∅) (Sample.one_each true) Sample.note_A).
  vm_compute. left. reflexivity.
Defined.

Lemma foreign_documents_stay_witness :
  Sample.note_A
  ∈ collection Notes
      (snd (Sample.app (Sample.as_u2 (DELETE_notes_id Sample.n1) ∅)
                       (Sample.one_each true))).
Proof.
  apply (foreign_documents_stay Sample.pk Sample.verify Notes
           (Sample.as_u2 (DELETE_notes_id Sample.n1) ∅)
           (Sample.one_each true) Sample.note_A "u1").
  - exact note_A_listed.
  - vm_compute. reflexivity.
  - intros user Hu.
    rewrite (authenticates_functional _ _ _ _ Hu
               (sample_u2_authenticates _ _)).
    discriminate.
Defined.

Lemma list_returns_own_witness :
  let req := Sample.as_u1 GET_notes ∅ in
  let w := Sample.one_each true in
  let listed := List.filter (matches (owner_query "u1")) (collection Notes w) in
  fst (Sample.app req w)
  = (if reachable w then mkResponse 200 (JsonDocs listed)
     else list_failed Notes)
  /\ (forall d owner,
        d ∈ collection Notes w -> d !! "userId" = Some (VStr owner) ->
        (In d listed <-> owner = "u1"))
  /\ (forall c', collection c' (snd (Sample.app req w)) = collection c' w).
Proof.
  exact (list_returns_own Sample.pk Sample.verify Notes
           (Sample.as_u1 GET_notes ∅) Sample.u1 (Sample.one_each true)
           (sample_u1_authenticates _ _) eq_refl).
Defined.

Lemma get_returns_owned_witness :
  let req := Sample.as_u1 (GET_folders_id Sample.n1) ∅ in
  let w := Sample.one_each true in
  fst (Sample.app req w) = mkResponse 200 (JsonDoc Sample.note_A)
  /\ forall c', collection c' (snd (Sample.app req w)) = collection c' w.
Proof.
  assert (Hu : unique_index (collection Folders (Sample.one_each true)) = true)
    by (vm_compute; reflexivity).
  assert (Hin : Sample.note_A ∈ collection Folders (Sample.one_each true))
    by (apply elem_of_cons; left; reflexivity).
  assert (Hid : Sample.note_A !! "_id" = Some (VOid (Sample.pk 0)))
    by (vm_compute; reflexivity).
  assert (Hown : Sample.note_A !! "userId" = Some (VStr (uid Sample.u1)))
    by (vm_compute; reflexivity).
  exact (get_returns_owned Sample.pk Sample.verify Folders Sample.n1
           (Sample.pk 0) (Sample.as_u1 (GET_folders_id Sample.n1) ∅)
           Sample.u1 (Sample.one_each true) Sample.note_A
           (sample_u1_authenticates _ _) eq_refl (parse_toHexString _)
           eq_refl Hu Hin Hid Hown).
Defined.

Lemma put_changes_one_witness :
  let req := Sample.as_u1 (PUT_notes_id Sample.n1) {["title" := VStr "B"]} in
  let w := Sample.one_each true in
  let q := scoped_query (Sample.pk 0) "u1" in
  exists l1 d l2,
    notesCollection w = l1 ++ d :: l2
    /\ notesCollection (snd (Sample.app req w)) = l1 ++ (body req ∪ d) :: l2
    /\ matches q d = true
    /\ (forall x, x ∈ l1 -> matches q x = false)
    /\ (forall k, (body req ∪ d) !! k = match body req !! k with
                                        | Some v => Some v
                                        | None => d !! k
                                        end)
    /\ (body req ∪ d) !! "_id" = d !! "_id"
    /\ folderCollection (snd (Sample.app req w)) = folderCollection w.
Proof.
  assert (H200 : status (fst (Secured.app Sample.pk Sample.verify
                   (Sample.as_u1 (PUT_notes_id Sample.n1)
                      {["title" := VStr "B"]})
                   (Sample.one_each true))) = 200)
    by (vm_compute; reflexivity).
  assert (Hplain : plain_keys (body (Sample.as_u1 (PUT_notes_id Sample.n1)
                                       {["title" := VStr "B"]})) = true)
    by (vm_compute; reflexivity).
  exact (put_changes_one Sample.pk Sample.verify Sample.n1 (Sample.pk 0)
           (Sample.as_u1 (PUT_notes_id Sample.n1) {["title" := VStr "B"]})
           Sample.u1 (Sample.one_each true)
           (sample_u1_authenticates _ _) eq_refl (parse_toHexString _)
           Hplain H200).
Defined.

Lemma put_idempotent_witness :
  let req := Sample.as_u1 (PUT_notes_id Sample.n1) {["title" := VStr "B"]} in
  let w1 := snd (Sample.app req (Sample.one_each true)) in
  status (fst (Sample.app req w1)) = 200
  /\ forall c, collection c (snd (Sample.app req w1)) = collection c w1.
Proof.
  assert (H200 : status (fst (Secured.app Sample.pk Sample.verify
                   (Sample.as_u1 (PUT_notes_id Sample.n1)
                      {["title" := VStr "B"]})
                   (Sample.one_each true))) = 200)
    by (vm_compute; reflexivity).
  assert (Hbody : body (Sample.as_u1 (PUT_notes_id Sample.n1)
                          {["title" := VStr "B"]}) !! "userId" = None)
    by (vm_compute; reflexivity).
  assert (Hplain : plain_keys (body (Sample.as_u1 (PUT_notes_id Sample.n1)
                                       {["title" := VStr "B"]})) = true)
    by (vm_compute; reflexivity).
  exact (put_idempotent Sample.pk Sample.verify Sample.n1 (Sample.pk 0)
           (Sample.as_u1 (PUT_notes_id Sample.n1) {["title" := VStr "B"]})
           Sample.u1 (Sample.one_each true)
           (sample_u1_authenticates _ _) eq_refl (parse_toHexString _)
           Hplain Hbody H200).
Defined.

Lemma delete_removes_one_witness :
  let req := Sample.as_u1 (DELETE_folders_id Sample.n1) ∅ in
  let w := Sample.one_each true in
  let q := scoped_query (Sample.pk 0) "u1" in
  exists l1 d l2,
    collection Folders w = l1 ++ d :: l2
    /\ collection Folders (snd (Sample.app req w)) = l1 ++ l2
    /\ matches q d = true
    /\ (forall x, x ∈ l1 -> matches q x = false).
Proof.
  assert (H200 : status (fst (Secured.app Sample.pk Sample.verify
                   (Sample.as_u1 (DELETE_folders_id Sample.n1) ∅)
                   (Sample.one_each true))) = 200)
    by (vm_compute; reflexivity).
  exact (delete_removes_one Sample.pk Sample.verify Folders Sample.n1
           (Sample.pk 0) (Sample.as_u1 (DELETE_folders_id Sample.n1) ∅)
           Sample.u1 (Sample.one_each true)
           (sample_u1_authenticates _ _) eq_refl (parse_toHexString _) H200).
Defined.

Lemma create_then_list_witness :
  let req := Sample.as_u2 POST_notes {["title" := VStr "C"]} in
  let w := Sample.one_each true in
  exists sent : doc,
    sent !! "userId" = Some (VStr "u2")
    /\ collection Notes (snd (Sample.app req w)) = collection Notes w ++ [sent]
    /\ forall req' user',
         authenticates Sample.verify req' user' ->
         target req' = list_route Notes ->
         fst (Sample.app req' (snd (Sample.app req w)))
         = mkResponse 200
             (JsonDocs
                (List.filter (matches (owner_query (uid user')))
                             (collection Notes w)
                 ++ (if String.eqb "u2" (uid user') then [sent] else []))).
Proof.
  assert (H201 : status (fst (Secured.app Sample.pk Sample.verify
                   (Sample.as_u2 POST_notes {["title" := VStr "C"]})
                   (Sample.one_each true))) = 201)
    by (vm_compute; reflexivity).
  exact (create_then_list Sample.pk Sample.verify Notes
           (Sample.as_u2 POST_notes {["title" := VStr "C"]})
           Sample.u2 (Sample.one_each true)
           (sample_u2_authenticates _ _) eq_refl H201).
Defined.

Lemma create_duplicate_rejected_witness :
  let req := Sample.as_u2 POST_notes {["_id" := VOid (Sample.pk 0)]} in
  let w := Sample.one_each true in
  fst (Sample.app req w) = create_failed Notes
  /\ forall c', collection c' (snd (Sample.app req w)) = collection c' w.
Proof.
  assert (Hv : body (Sample.as_u2 POST_notes {["_id" := VOid (Sample.pk 0)]})
               !! "_id" = Some (VOid (Sample.pk 0)))
    by (vm_compute; reflexivity).
  assert (Hnn : VOid (Sample.pk 0) <> VNull) by discriminate.
  assert (Hid : Sample.note_A !! "_id" = Some (VOid (Sample.pk 0)))
    by (vm_compute; reflexivity).
  exact (create_duplicate_rejected Sample.pk Sample.verify Notes
           (Sample.as_u2 POST_notes {["_id" := VOid (Sample.pk 0)]})
           Sample.u2 (Sample.one_each true) (VOid (Sample.pk 0))
           Sample.note_A (sample_u2_authenticates _ _) eq_refl Hv Hnn
           note_A_listed Hid).
Defined.

Lemma store_down_status_witness :
  let req := Sample.as_u1 (GET_folders_id Sample.n1) ∅ in
  status (fst (Sample.app req (Sample.one_each false))) = 400
  /\ exists m, content (fst (Sample.app req (Sample.one_each false)))
               = Message m.
Proof.
  exact (store_down_status Sample.pk Sample.verify
           (Sample.as_u1 (GET_folders_id Sample.n1) ∅) Sample.u1
           (Sample.one_each false) (sample_u1_authenticates _ _)
           eq_refl eq_refl).
Defined.

Lemma malformed_id_status_witness :
  let req := Sample.as_u1 (DELETE_folders_id "not-an-id") ∅ in
  let w := Sample.one_each true in
  status (fst (Sample.app req w)) = 500
  /\ calls (snd (Sample.app req w)) = calls w
  /\ forall c', collection c' (snd (Sample.app req w)) = collection c' w.
Proof.
  assert (Hroute : target (Sample.as_u1 (DELETE_folders_id "not-an-id") ∅)
                   ∈ by_id_routes Folders "not-an-id")
    by (apply elem_of_cons; right; apply elem_of_cons; left; reflexivity).
  assert (Hparse : parseObjectId "not-an-id" = None)
    by (vm_compute; reflexivity).
  exact (malformed_id_status Sample.pk Sample.verify Folders "not-an-id"
           (Sample.as_u1 (DELETE_folders_id "not-an-id") ∅) Sample.u1
           (Sample.one_each true) (sample_u1_authenticates _ _)
           Hroute Hparse).
Defined.

Lemma secured_app_preserves_wf_witness :
  store_wf (snd (Sample.app (Sample.as_u2 POST_notes {["title" := VStr "C"]})
                            (Sample.one_each true))) = true.
Proof.
  apply (secured_app_preserves_wf Sample.pk Sample.verify
           (Sample.as_u2 POST_notes {["title" := VStr "C"]})
           (Sample.one_each true)).
  vm_compute. reflexivity.
Defined.

Lemma client_id_kept_witness :
  content (fst (Sample.app (Sample.as_u1 POST_folders {["_id" := VStr "mine"]})
                           (Sample.empty true)))
  = JsonInsertOneResult (mkInsertOneResult true (VStr "mine")).
Proof.
  assert (Hv : body (Sample.as_u1 POST_folders {["_id" := VStr "mine"]})
               !! "_id" = Some (VStr "mine"))
    by (vm_compute; reflexivity).
  assert (Hnn : VStr "mine" <> VNull) by discriminate.
  assert (H201 : status (fst (Secured.app Sample.pk Sample.verify
                   (Sample.as_u1 POST_folders {["_id" := VStr "mine"]})
                   (Sample.empty true))) = 201)
    by (vm_compute; reflexivity).
  exact (client_id_kept Sample.pk Sample.verify Folders
           (Sample.as_u1 POST_folders {["_id" := VStr "mine"]})
           Sample.u1 (Sample.empty true) (VStr "mine")
           (sample_u1_authenticates _ _) eq_refl Hv Hnn H201).
Defined.

(** Keys that [$set] would read as a path or an operator are not field
    names. *)
Example plain_keys_examples :
  plain_keys {["title" := VStr "B"]} = true
  /\ plain_keys {["a.b" := VNum 1]} = false
  /\ plain_keys {["userId.0" := VStr "u2"]} = false
  /\ plain_keys {["$inc" := VNum 1]} = false
  /\ plain_keys {["" := VNum 1]} = false.
Proof. repeat split; vm_compute; reflexivity. Qed.
